(** * Asset matcher of the avatar demo: a shallow embedding and its properties

  The development embeds the class [AssetMapper] (the service that maps a
  free-text avatar description to Ready Player Me asset ids) together with
  the JavaScript primitives it relies on, and proves properties of
  [findAssets], [calculateMatchScore], [extractSearchTerms] and
  [buildAvatarConfig].

  Conventions of the embedding.
  - A JavaScript string is a [string]: a sequence of code units below 256
    (the Latin-1 part of UTF-16).  [toLowerCase], the white-space class
    [\s] and the regular-expression classes are written out for that range.
  - A score is a [nat]: the source only ever adds the constants 10, 5, 3, 2
    and 1 to 0.
  - A plain object used as a dictionary is an association list in insertion
    order, which is the order [Object.entries] and [Object.values]
    enumerate its keys in (every key of the program is a non-numeric
    string that [Object.prototype] does not define). *)

From Stdlib Require Import List String Ascii Arith Bool Lia Sorted.
Import ListNotations.
Open Scope string_scope.
Open Scope list_scope.
Open Scope nat_scope.

(** ** JavaScript primitives used by the mapper *)

Module Js.

(** [String.prototype.toLowerCase] on one code unit: A-Z, and the Latin-1
    capitals U+00C0..U+00DE except the multiplication sign U+00D7. *)
Definition lowerChar (c : ascii) : ascii :=
  let n := nat_of_ascii c in
  if ((65 <=? n) && (n <=? 90))
     || ((192 <=? n) && (n <=? 222) && negb (n =? 215))
  then ascii_of_nat (n + 32)
  else c.

Fixpoint toLowerCase (s : string) : string :=
  match s with
  | EmptyString => EmptyString
  | String c s' => String (lowerChar c) (toLowerCase s')
  end.

(** The class [\s]: TAB, LF, VT, FF, CR, SPACE and NO-BREAK SPACE. *)
Definition isWhiteSpace (c : ascii) : bool :=
  let n := nat_of_ascii c in
  ((9 <=? n) && (n <=? 13)) || (n =? 32) || (n =? 160).

Definition startsWithWhiteSpace (s : string) : bool :=
  match s with
  | EmptyString => false
  | String c _ => isWhiteSpace c
  end.

(** [s.split(/\s+/)]: the pieces between maximal runs of white space.  A
    run at either end of the string leaves an empty piece there, and the
    empty string splits into one empty piece. *)
Fixpoint split_ws (s : string) : list string :=
  match s with
  | EmptyString => [EmptyString]
  | String c s' =>
      if isWhiteSpace c then
        if startsWithWhiteSpace s' then split_ws s'
        else EmptyString :: split_ws s'
      else
        match split_ws s' with
        | [] => [String c EmptyString]
        | piece :: pieces => String c piece :: pieces
        end
  end.

(** [s.includes(sub)]: [sub] occurs in [s] as a substring. *)
Fixpoint includes (s sub : string) : bool :=
  prefix sub s
  || match s with
     | EmptyString => false
     | String _ s' => includes s' sub
     end.

(** [arr.includes(x)] on an array of strings (strict equality). *)
Definition arr_includes (arr : list string) (x : string) : bool :=
  existsb (String.eqb x) arr.

(** [g.replace(/s$/, '')]: drops one final letter s. *)
Fixpoint replace_final_s (g : string) : string :=
  match g with
  | EmptyString => EmptyString
  | String c EmptyString =>
      if Ascii.eqb c "s"%char then EmptyString else g
  | String c g' => String c (replace_final_s g')
  end.

(** *** Plain objects as dictionaries, in insertion order *)

Section Obj.
Context {V : Type}.

Definition obj := list (string * V).

Fixpoint get (o : obj) (k : string) : option V :=
  match o with
  | [] => None
  | (k', v) :: o' => if String.eqb k k' then Some v else get o' k
  end.

(** [o[k] = v]: an existing key keeps its place, a new key goes last. *)
Fixpoint set (o : obj) (k : string) (v : V) : obj :=
  match o with
  | [] => [(k, v)]
  | (k', v') :: o' =>
      if String.eqb k k' then (k', v) :: o' else (k', v') :: set o' k v
  end.

Definition keys (o : obj) : list string := map fst o.
Definition values (o : obj) : list V := map snd o.
End Obj.
Arguments obj : clear implicits.

(** [arr.sort((a, b) => key b - key a)]: the stable sort by decreasing
    key.  The array is sorted by insertion from the right, a new element
    going in front of the first element it does not have to follow. *)
Section Sort.
Context {A : Type} (key : A -> nat).

Fixpoint insert_desc (x : A) (l : list A) : list A :=
  match l with
  | [] => [x]
  | y :: l' =>
      if key y <=? key x then x :: y :: l' else y :: insert_desc x l'
  end.

Fixpoint sort_desc (l : list A) : list A :=
  match l with
  | [] => []
  | x :: l' => insert_desc x (sort_desc l')
  end.
End Sort.

End Js.

(** ** The regular expressions of the gender inference *)

Module Regex.

(** The class [\w]. *)
Definition isWordChar (c : ascii) : bool :=
  let n := nat_of_ascii c in
  ((48 <=? n) && (n <=? 57)) || ((65 <=? n) && (n <=? 90))
  || (n =? 95) || ((97 <=? n) && (n <=? 122)).

Definition isWordCharAt (c : option ascii) : bool :=
  match c with
  | None => false
  | Some c => isWordChar c
  end.

(** The canonical form the flag [i] compares code units by: the upper-case
    form, except where that form leaves the range of the string model. *)
Definition canonicalize (c : ascii) : ascii :=
  let n := nat_of_ascii c in
  if ((97 <=? n) && (n <=? 122))
     || ((224 <=? n) && (n <=? 254) && negb (n =? 247))
  then ascii_of_nat (n - 32)
  else c.

Definition head (s : string) : option ascii :=
  match s with
  | EmptyString => None
  | String c _ => Some c
  end.

(** [\b] between the code unit before the position and the one after. *)
Definition wordBoundary (prev next : option ascii) : bool :=
  xorb (isWordCharAt prev) (isWordCharAt next).

(** Matches the literal [pat] at the start of [s], ignoring case; returns
    the last code unit read (or [prev]) and the rest of the input. *)
Fixpoint matchLiteral (pat : string) (prev : option ascii) (s : string)
  : option (option ascii * string) :=
  match pat with
  | EmptyString => Some (prev, s)
  | String p pat' =>
      match s with
      | EmptyString => None
      | String c s' =>
          if Ascii.eqb (canonicalize p) (canonicalize c)
          then matchLiteral pat' (Some c) s'
          else None
      end
  end.

(** [\b(alt1|alt2|...)\b] tried at one position. *)
Definition matchWordAt (alts : list string) (prev : option ascii)
    (s : string) : bool :=
  wordBoundary prev (head s)
  && existsb
       (fun alt =>
          match matchLiteral alt prev s with
          | Some (last, rest) => wordBoundary last (head rest)
          | None => false
          end)
       alts.

Fixpoint searchFrom (alts : list string) (prev : option ascii)
    (s : string) : bool :=
  matchWordAt alts prev s
  || match s with
     | EmptyString => false
     | String c s' => searchFrom alts (Some c) s'
     end.

(** [s.match(/\b(alt1|alt2|...)\b/i)] is not [null]. *)
Definition matchesWord (alts : list string) (s : string) : bool :=
  searchFrom alts None s.

End Regex.


(** ** Data model *)

(** An entry of the asset table. *)
Module Asset.
Record t := mk {
  id : string;
  name : string;
  type : string;
  gender : list string;
  tags : list string
}.
End Asset.

(** [interface AssetMatch]. *)
Module AssetMatch.
Record t := mk {
  id : string;
  name : string;
  type : string;
  score : nat;
  gender : list string
}.
End AssetMatch.

(** The value [extractSearchTerms] returns. *)
Module SearchTerms.
Record t := mk {
  colors : list string;
  materials : list string;
  types : list string;
  styles : list string;
  gender : list string;
  keywords : list string
}.
End SearchTerms.

(** The value [buildAvatarConfig] returns. *)
Module AvatarConfig.
Record t := mk {
  gender : string;
  assets : list AssetMatch.t;
  config : Js.obj string
}.
End AvatarConfig.

(** [SAMPLE_ASSETS], as [Object.entries] lists it. *)
Definition SAMPLE_ASSETS : Js.obj Asset.t :=
  [ ("outfit_leather_jacket_black",
     Asset.mk "outfit_leather_jacket_black" "Black Leather Jacket" "outfit"
       ["male"; "female"] ["jacket"; "leather"; "black"; "casual"; "cool"]);
    ("outfit_blue_jeans",
     Asset.mk "outfit_blue_jeans" "Blue Denim Jeans" "bottom"
       ["male"; "female"] ["jeans"; "denim"; "blue"; "casual"; "pants"]);
    ("outfit_white_tshirt",
     Asset.mk "outfit_white_tshirt" "White T-Shirt" "top"
       ["male"; "female"] ["shirt"; "tshirt"; "white"; "casual"; "basic"]);
    ("outfit_hoodie_gray",
     Asset.mk "outfit_hoodie_gray" "Gray Hoodie" "top"
       ["male"; "female"]
       ["hoodie"; "gray"; "casual"; "comfortable"; "sweater"]);
    ("outfit_business_suit",
     Asset.mk "outfit_business_suit" "Business Suit" "outfit"
       ["male"; "female"]
       ["suit"; "business"; "formal"; "professional"; "jacket"]);
    ("glasses_sunglasses_black",
     Asset.mk "glasses_sunglasses_black" "Black Sunglasses" "glasses"
       ["male"; "female"]
       ["sunglasses"; "black"; "cool"; "glasses"; "eyewear"]);
    ("glasses_reading",
     Asset.mk "glasses_reading" "Reading Glasses" "glasses"
       ["male"; "female"] ["glasses"; "reading"; "eyewear"; "clear"]);
    ("hair_short_black",
     Asset.mk "hair_short_black" "Short Black Hair" "hair"
       ["male"] ["hair"; "short"; "black"; "neat"]);
    ("hair_long_brown",
     Asset.mk "hair_long_brown" "Long Brown Hair" "hair"
       ["female"] ["hair"; "long"; "brown"; "flowing"]);
    ("hair_beard_full",
     Asset.mk "hair_beard_full" "Full Beard" "facialHair"
       ["male"] ["beard"; "facial"; "hair"; "full"; "masculine"]) ].

(** ** The class [AssetMapper] *)

Module AssetMapper.

(** *** [extractSearchTerms] *)

Definition colors : list string :=
  [ "black"; "white"; "red"; "blue"; "green"; "yellow"; "orange"; "purple";
    "pink"; "brown"; "gray"; "grey"; "navy"; "beige"; "tan"; "gold";
    "silver" ].

Definition materials : list string :=
  [ "leather"; "denim"; "cotton"; "silk"; "wool"; "polyester"; "velvet";
    "suede"; "canvas"; "nylon"; "satin"; "lace"; "metal"; "plastic" ].

Definition clothingTypes : list string :=
  [ "jacket"; "coat"; "shirt"; "tshirt"; "t-shirt"; "pants"; "jeans";
    "shorts"; "dress"; "skirt"; "suit"; "hoodie"; "sweater"; "vest";
    "blazer"; "hat"; "cap"; "glasses"; "sunglasses"; "shoes"; "boots";
    "sneakers"; "hair"; "beard"; "mustache"; "top"; "bottom"; "outfit" ].

Definition styles : list string :=
  [ "casual"; "formal"; "business"; "sporty"; "athletic"; "vintage";
    "modern"; "classic"; "punk"; "gothic"; "hipster"; "preppy"; "street";
    "elegant"; "simple"; "fancy"; "retro"; "trendy" ].

Definition genderTerms : list string :=
  [ "male"; "female"; "man"; "woman"; "men"; "women"; "boy"; "girl";
    "masculine"; "feminine"; "unisex"; "neutral" ].

Definition extractSearchTerms (description : string) : SearchTerms.t :=
  let lowerDesc := Js.toLowerCase description in
  let words := Js.split_ws lowerDesc in
  {| SearchTerms.colors := filter (Js.arr_includes colors) words;
     SearchTerms.materials := filter (Js.arr_includes materials) words;
     SearchTerms.types := filter (Js.arr_includes clothingTypes) words;
     SearchTerms.styles := filter (Js.arr_includes styles) words;
     SearchTerms.gender := filter (Js.arr_includes genderTerms) words;
     SearchTerms.keywords := words |}.

(** *** [calculateMatchScore] *)

(** One [forEach] pass over a bucket: [score += weight] at every token that
    hits. *)
Definition forEachHit (weight : nat) (hit : string -> bool)
    (tokens : list string) (score : nat) : nat :=
  fold_left (fun score token => if hit token then score + weight else score)
    tokens score.

Definition typeHit (asset : Asset.t) (assetName : string)
    (assetTags : list string) (type : string) : bool :=
  Js.includes assetName type
  || String.eqb (Asset.type asset) type
  || Js.arr_includes assetTags type.

(** The test shared by the colour, material and style passes. *)
Definition tagHit (assetName : string) (assetTags : list string)
    (token : string) : bool :=
  Js.includes assetName token || Js.arr_includes assetTags token.

(** The callback of [searchTerms.gender.some]. *)
Definition genderTokenMatch (asset : Asset.t) (g : string) : bool :=
  let normalizedGender := Js.replace_final_s g in
  existsb (fun ag => Js.includes (Js.toLowerCase ag) normalizedGender)
    (Asset.gender asset).

Definition genderMatch (asset : Asset.t) (searchTerms : SearchTerms.t)
  : bool :=
  existsb (genderTokenMatch asset) (SearchTerms.gender searchTerms).

(** The gender step: [asset.gender] is an array, hence truthy. *)
Definition genderPass (asset : Asset.t) (searchTerms : SearchTerms.t)
    (score : nat) : nat :=
  if 0 <? List.length (SearchTerms.gender searchTerms) then
    if genderMatch asset searchTerms then score + 2 else score
  else score.

Definition keywordHit (assetName : string) (assetTags : list string)
    (keyword : string) : bool :=
  if 3 <? String.length keyword then
    Js.includes assetName keyword
    || existsb (fun tag => Js.includes tag keyword) assetTags
  else false.

(** The last pass of the scorer, on its own. *)
Definition keywordPass (assetName : string) (assetTags : list string)
    (keywords : list string) (score : nat) : nat :=
  forEachHit 1 (keywordHit assetName assetTags) keywords score.

Definition calculateMatchScore (asset : Asset.t)
    (searchTerms : SearchTerms.t) : nat :=
  let score := 0 in
  let assetName := Js.toLowerCase (Asset.name asset) in
  let assetTags := Asset.tags asset in
  let score :=
    forEachHit 10 (typeHit asset assetName assetTags)
      (SearchTerms.types searchTerms) score in
  let score :=
    forEachHit 5 (tagHit assetName assetTags)
      (SearchTerms.colors searchTerms) score in
  let score :=
    forEachHit 5 (tagHit assetName assetTags)
      (SearchTerms.materials searchTerms) score in
  let score :=
    forEachHit 3 (tagHit assetName assetTags)
      (SearchTerms.styles searchTerms) score in
  let score := genderPass asset searchTerms score in
  let score :=
    keywordPass assetName assetTags (SearchTerms.keywords searchTerms)
      score in
  score.

(** *** [findAssets] *)

Section WithAssets.
Variable assets : Js.obj Asset.t.

(** The body of the [forEach] over [Object.entries(this.assets)]. *)
Definition pushIfMatch (searchTerms : SearchTerms.t)
    (matches : list AssetMatch.t) (entry : string * Asset.t)
  : list AssetMatch.t :=
  let '(id, asset) := entry in
  let score := calculateMatchScore asset searchTerms in
  if 0 <? score then
    matches
    ++ [ AssetMatch.mk id (Asset.name asset) (Asset.type asset) score
           (Asset.gender asset) ]
  else matches.

(** The array [matches] when the loop ends, before it is sorted. *)
Definition collectMatches (searchTerms : SearchTerms.t)
  : list AssetMatch.t :=
  fold_left (pushIfMatch searchTerms) assets [].

Definition findAssetsIn (description : string) : list AssetMatch.t :=
  let searchTerms := extractSearchTerms description in
  let matches := collectMatches searchTerms in
  firstn 10 (Js.sort_desc AssetMatch.score matches).

(** *** [mapTypeToConfigKey] *)

Definition typeMap : Js.obj string :=
  [ ("hair", "hairStyle");
    ("facialHair", "facialHairStyle");
    ("eyebrows", "eyebrowStyle");
    ("eyes", "eyeColor");
    ("outfit", "outfit");
    ("top", "outfit");
    ("bottom", "outfit");
    ("footwear", "footwear");
    ("glasses", "glasses");
    ("headwear", "headwear");
    ("facewear", "facewear");
    ("neckwear", "neckwear");
    ("earrings", "earrings");
    ("makeup", "makeup") ].

(** [typeMap[type] || null], with [None] for [null]: every value of the
    table is a non-empty string. *)
Definition mapTypeToConfigKey (type : string) : option string :=
  Js.get typeMap type.

(** *** [buildAvatarConfig] *)

Definition malePatterns : list string := [ "man"; "male"; "boy"; "gentleman" ].
Definition femalePatterns : list string := [ "woman"; "female"; "girl"; "lady" ].

Definition inferGender (description : string) : string :=
  if Regex.matchesWord malePatterns description then "male"
  else if Regex.matchesWord femalePatterns description then "female"
  else "neutral".

(** The body of the loop that fills [assetsByType]. *)
Definition keepBest (assetsByType : Js.obj AssetMatch.t)
    (asset : AssetMatch.t) : Js.obj AssetMatch.t :=
  match Js.get assetsByType (AssetMatch.type asset) with
  | None => Js.set assetsByType (AssetMatch.type asset) asset
  | Some best =>
      if AssetMatch.score best <? AssetMatch.score asset
      then Js.set assetsByType (AssetMatch.type asset) asset
      else assetsByType
  end.

Definition groupByType (assets : list AssetMatch.t) : Js.obj AssetMatch.t :=
  fold_left keepBest assets [].

(** The body of the loop that fills [config]. *)
Definition putConfig (config : Js.obj string)
    (entry : string * AssetMatch.t) : Js.obj string :=
  let '(type, asset) := entry in
  match mapTypeToConfigKey type with
  | Some configKey => Js.set config configKey (AssetMatch.id asset)
  | None => config
  end.

Definition buildConfig (assetsByType : Js.obj AssetMatch.t) : Js.obj string :=
  fold_left putConfig assetsByType [].

Definition buildAvatarConfigIn (description : string) : AvatarConfig.t :=
  let genderMatch := inferGender description in
  let assets := findAssetsIn description in
  let assetsByType := groupByType assets in
  let config := buildConfig assetsByType in
  {| AvatarConfig.gender := genderMatch;
     AvatarConfig.assets := Js.values assetsByType;
     AvatarConfig.config := config |}.

End WithAssets.

(** The constructor sets [this.assets = SAMPLE_ASSETS]. *)
Definition findAssets : string -> list AssetMatch.t :=
  findAssetsIn SAMPLE_ASSETS.

Definition buildAvatarConfig : string -> AvatarConfig.t :=
  buildAvatarConfigIn SAMPLE_ASSETS.

End AssetMapper.

Import AssetMapper.

(** * Vocabulary of the properties *)

(** ** Order of the results *)

(** [Before x y l]: [x] occurs in [l] and [y] occurs somewhere after it. *)
Inductive Before {A : Type} (x y : A) : list A -> Prop :=
| Before_here (l : list A) : In y l -> Before x y (x :: l)
| Before_later (z : A) (l : list A) : Before x y l -> Before x y (z :: l).

(** Non-increasing order of the keys. *)
Definition descending {A : Type} (key : A -> nat) : list A -> Prop :=
  StronglySorted (fun a b => key b <= key a).

(** ** Scores and matches *)

(** The score before the generic keyword pass. *)
Definition bucketScore (asset : Asset.t) (searchTerms : SearchTerms.t)
  : nat :=
  let assetName := Js.toLowerCase (Asset.name asset) in
  let assetTags := Asset.tags asset in
  genderPass asset searchTerms
    (forEachHit 3 (tagHit assetName assetTags)
       (SearchTerms.styles searchTerms)
       (forEachHit 5 (tagHit assetName assetTags)
          (SearchTerms.materials searchTerms)
          (forEachHit 5 (tagHit assetName assetTags)
             (SearchTerms.colors searchTerms)
             (forEachHit 10 (typeHit asset assetName assetTags)
                (SearchTerms.types searchTerms) 0)))).

(** The match object the loop builds for an entry. *)
Definition toMatch (searchTerms : SearchTerms.t)
    (entry : string * Asset.t) : AssetMatch.t :=
  AssetMatch.mk (fst entry) (Asset.name (snd entry))
    (Asset.type (snd entry))
    (calculateMatchScore (snd entry) searchTerms)
    (Asset.gender (snd entry)).

Definition positive (m : AssetMatch.t) : bool := 0 <? AssetMatch.score m.

(** ** Retained matches and configuration keys *)

(** [m] stands in [l], scores strictly more than every match of its type
    before it, and at least as much as every match of its type after it:
    the best match of the type, the first one seen among equals. *)
Definition firstBestOfType (m : AssetMatch.t) (l : list AssetMatch.t)
  : Prop :=
  exists l1 l2,
    l = l1 ++ m :: l2 /\
    (forall x, In x l1 -> AssetMatch.type x = AssetMatch.type m ->
               AssetMatch.score x < AssetMatch.score m) /\
    (forall x, In x l2 -> AssetMatch.type x = AssetMatch.type m ->
               AssetMatch.score x <= AssetMatch.score m).

(** What holds of [assetsByType] once the matches [seen] have been
    visited. *)
Definition GroupInv (seen : list AssetMatch.t)
    (o : Js.obj AssetMatch.t) : Prop :=
  NoDup (Js.keys o) /\
  (forall k m, In (k, m) o ->
               AssetMatch.type m = k /\ firstBestOfType m seen) /\
  (forall x, In x seen -> In (AssetMatch.type x) (Js.keys o)).

(** [m] is a match whose type the table [typeMap] sends to [key]. *)
Definition mapsToKey (key : string) (m : AssetMatch.t) : Prop :=
  mapTypeToConfigKey (AssetMatch.type m) = Some key.

(** C1 as the specification words it: the id under a configuration key is
    that of the best-scoring retained match among those whose type maps to
    the key. *)
Definition configHoldsHighest (r : AvatarConfig.t) : Prop :=
  NoDup (Js.keys (AvatarConfig.config r)) /\
  forall key id : string,
    Js.get (AvatarConfig.config r) key = Some id ->
    exists m,
      In m (AvatarConfig.assets r) /\ mapsToKey key m /\
      AssetMatch.id m = id /\
      forall m', In m' (AvatarConfig.assets r) -> mapsToKey key m' ->
                 AssetMatch.score m' <= AssetMatch.score m.

(** ** Entries that share nothing with the query *)

(** The first entry of the table. *)
Definition leatherJacket : Asset.t :=
  Asset.mk "outfit_leather_jacket_black" "Black Leather Jacket" "outfit"
    ["male"; "female"] ["jacket"; "leather"; "black"; "casual"; "cool"].

(** No (non-empty) token of the query is a substring of the lower-cased
    name of the entry or a substring of one of its tags, and none is the
    type of the entry.  Substrings, because that is how the scorer looks a
    token up: [assetName.includes] in every pass, and [tag.includes] in the
    keyword pass; a token that equals a tag is a substring of it. *)
Definition unrelated (asset : Asset.t) (description : string) : Prop :=
  forall w : string,
    In w (SearchTerms.keywords (extractSearchTerms description)) ->
    w <> "" ->
    Js.includes (Js.toLowerCase (Asset.name asset)) w = false /\
    (forall tag, In tag (Asset.tags asset) -> Js.includes tag w = false) /\
    Asset.type asset <> w.

(** C2 as the specification words it, for the entry [asset] stored under
    [id]: an unrelated entry scores 0 and is not returned, whatever the
    gender words of the query.  "Appears in the name or tags" is taken in
    its widest sense (occurs as a substring), which makes the hypothesis as
    strong as it can be read. *)
Definition unrelatedScoresZero (id : string) (asset : Asset.t)
    (description : string) : Prop :=
  unrelated asset description ->
  calculateMatchScore asset (extractSearchTerms description) = 0 /\
  ~ In id (map AssetMatch.id (findAssets description)).

(** ** The scoring example *)

Definition exampleQuery : string := "black leather jacket for a man".

(** C3 as the specification words it: hits for the type, the colour, the
    material and the gender, 22 before the keyword pass, and the keyword
    pass on top. *)
Definition scoringExampleAsStated : Prop :=
  let searchTerms := extractSearchTerms exampleQuery in
  let assetName := Js.toLowerCase (Asset.name leatherJacket) in
  let assetTags := Asset.tags leatherJacket in
  forEachHit 10 (typeHit leatherJacket assetName assetTags)
    (SearchTerms.types searchTerms) 0 = 10
  /\ forEachHit 5 (tagHit assetName assetTags)
       (SearchTerms.colors searchTerms) 0 = 5
  /\ forEachHit 5 (tagHit assetName assetTags)
       (SearchTerms.materials searchTerms) 0 = 5
  /\ genderPass leatherJacket searchTerms 0 = 2
  /\ bucketScore leatherJacket searchTerms = 22
  /\ calculateMatchScore leatherJacket searchTerms
     = 22 + keywordPass assetName assetTags
              (SearchTerms.keywords searchTerms) 0.

(** ** Whole words *)

(** The code unit that ends [s], or [prev] when [s] is empty. *)
Fixpoint lastFrom (prev : option ascii) (s : string) : option ascii :=
  match s with
  | EmptyString => prev
  | String c s' => lastFrom (Some c) s'
  end.

(** [w] occurs in [d] as a whole word, letter case apart: [d] is
    [pre ++ mid ++ post] where [mid] and [w] have the same lower-case form,
    [pre] does not end with a word character and [post] does not start
    with one. *)
Definition WholeWord (w d : string) : Prop :=
  exists pre mid post : string,
    d = String.append pre (String.append mid post) /\
    Js.toLowerCase mid = Js.toLowerCase w /\
    Regex.isWordCharAt (lastFrom None pre) = false /\
    Regex.isWordCharAt (Regex.head post) = false.

Definition someWholeWord (alts : list string) (d : string) : Prop :=
  exists w, In w alts /\ WholeWord w d.

Fixpoint allWordChars (s : string) : bool :=
  match s with
  | EmptyString => true
  | String c s' => Regex.isWordChar c && allWordChars s'
  end.

(** A non-empty pattern made of word characters. *)
Definition wordPattern (p : string) : bool :=
  match p with
  | EmptyString => false
  | String _ _ => allWordChars p
  end.

(** ** Run-time errors *)

(** The two methods read fields that every entry of the table has and call
    string and array methods that are defined on all strings and arrays.
    The one access that depends on the data is the member access
    [assetsByType[asset.type].score], an error when the lookup gives
    [undefined].  The checked variant of the grouping loop makes that
    access explicit. *)
Module Checked.

Inductive completion (A : Type) : Type :=
| Normal (a : A)
| TypeError.
Arguments Normal {A} a.
Arguments TypeError {A}.

Definition bind {A B : Type} (c : completion A) (k : A -> completion B)
  : completion B :=
  match c with
  | Normal a => k a
  | TypeError => TypeError
  end.

(** [entry.score]. *)
Definition memberScore (entry : option AssetMatch.t) : completion nat :=
  match entry with
  | Some m => Normal (AssetMatch.score m)
  | None => TypeError
  end.

(** [!entry || entry.score < asset.score]: the right operand is evaluated
    only when the left one is false. *)
Definition mustReplace (entry : option AssetMatch.t) (asset : AssetMatch.t)
  : completion bool :=
  match entry with
  | None => Normal true
  | Some _ =>
      bind (memberScore entry)
        (fun s => Normal (s <? AssetMatch.score asset))
  end.

Definition keepBest (assetsByType : Js.obj AssetMatch.t)
    (asset : AssetMatch.t) : completion (Js.obj AssetMatch.t) :=
  bind (mustReplace (Js.get assetsByType (AssetMatch.type asset)) asset)
    (fun replace =>
       Normal (if replace
               then Js.set assetsByType (AssetMatch.type asset) asset
               else assetsByType)).

Definition groupByType (assets : list AssetMatch.t)
  : completion (Js.obj AssetMatch.t) :=
  fold_left (fun acc asset => bind acc (fun o => keepBest o asset)) assets
    (Normal []).

Definition buildAvatarConfig (description : string)
  : completion AvatarConfig.t :=
  let genderMatch := inferGender description in
  let assets := findAssets description in
  bind (groupByType assets)
    (fun assetsByType =>
       Normal {| AvatarConfig.gender := genderMatch;
                 AvatarConfig.assets := Js.values assetsByType;
                 AvatarConfig.config := buildConfig assetsByType |}).

End Checked.

From Stdlib Require Import Permutation DecimalString.

(** * Further methods, and the callers of the mapper *)

(** ** Member access on a plain object *)

Module JsObject.

(** The names every plain object inherits from [Object.prototype]. *)
Definition objectPrototypeNames : list string :=
  [ "constructor"; "__defineGetter__"; "__defineSetter__"; "hasOwnProperty";
    "__lookupGetter__"; "__lookupSetter__"; "isPrototypeOf";
    "propertyIsEnumerable"; "toString"; "valueOf"; "__proto__";
    "toLocaleString" ].

(** What [o[k]] evaluates to: the value stored under an own key, a member of
    [Object.prototype], or [undefined]. *)
Inductive member (V : Type) : Type :=
| Own (v : V)
| Inherited
| Undefined.
Arguments Own {V} v.
Arguments Inherited {V}.
Arguments Undefined {V}.

Definition readMember {V : Type} (o : Js.obj V) (k : string) : member V :=
  match Js.get o k with
  | Some v => Own v
  | None =>
      if Js.arr_includes objectPrototypeNames k then Inherited else Undefined
  end.

End JsObject.

(** ** [getAssetById] *)

(** [this.assets[id]]. *)
Definition getAssetById (id : string) : JsObject.member Asset.t :=
  JsObject.readMember SAMPLE_ASSETS id.

(** ** Vocabulary of the further properties *)

(** The first match of each type, in the order of [l]; [seen] lists the
    types met so far. *)
Fixpoint firstOfEachType (seen : list string) (l : list AssetMatch.t)
  : list AssetMatch.t :=
  match l with
  | [] => []
  | a :: l' =>
      if Js.arr_includes seen (AssetMatch.type a)
      then firstOfEachType seen l'
      else a :: firstOfEachType (seen ++ [AssetMatch.type a]) l'
  end.

(** The code units of a string. *)
Fixpoint codeUnits (s : string) : list ascii :=
  match s with
  | EmptyString => []
  | String c s' => c :: codeUnits s'
  end.

(** A code unit with the letters A-Z, and only them, put in lower case. *)
Definition asciiLowerChar (c : ascii) : ascii :=
  let n := nat_of_ascii c in
  if (65 <=? n) && (n <=? 90) then ascii_of_nat (n + 32) else c.

(** A string with its letters A-Z put in lower case: two strings with the
    same image differ in the case of letters of the English alphabet, and
    in nothing else. *)
Fixpoint asciiLower (s : string) : string :=
  match s with
  | EmptyString => EmptyString
  | String c s' => String (asciiLowerChar c) (asciiLower s')
  end.

(** Two code units (or two starts of input) that differ at most by the case
    of a letter A-Z. *)
Definition sameAsciiCase (a b : option ascii) : Prop :=
  option_map asciiLowerChar a = option_map asciiLowerChar b.

(** In how many of the five vocabularies of [extractSearchTerms] a token
    stands. *)
Definition bucketsOf (w : string) : nat :=
  (if Js.arr_includes colors w then 1 else 0)
  + (if Js.arr_includes materials w then 1 else 0)
  + (if Js.arr_includes clothingTypes w then 1 else 0)
  + (if Js.arr_includes styles w then 1 else 0)
  + (if Js.arr_includes genderTerms w then 1 else 0).

(** ** [String.prototype.trim] *)

Module JsString.

(** [trimStart]: drops the white space the string starts with.  In the range
    of the string model the code units [trim] removes are those of the
    class [\s]. *)
Fixpoint trimStart (s : string) : string :=
  match s with
  | EmptyString => EmptyString
  | String c s' => if Js.isWhiteSpace c then trimStart s' else s
  end.

(** [trimEnd]: drops the white space the string ends with. *)
Fixpoint trimEnd (s : string) : string :=
  match s with
  | EmptyString => EmptyString
  | String c s' =>
      match trimEnd s' with
      | EmptyString =>
          if Js.isWhiteSpace c then EmptyString else String c EmptyString
      | rest => String c rest
      end
  end.

Definition trim (s : string) : string := trimEnd (trimStart s).

End JsString.

(** ** The component [TextToAvatar], caller of [buildAvatarConfig] *)

Module TextToAvatar.

(** The four state variables of the component. *)
Record State := mkState {
  description : string;
  loading : bool;
  results : option AvatarConfig.t;
  error : string
}.

(** The values [useState] starts from. *)
Definition initialState : State :=
  {| description := ""; loading := false; results := None; error := "" |}.

Definition setDescription (d : string) (st : State) : State :=
  {| description := d; loading := loading st; results := results st;
     error := error st |}.

Definition setLoading (b : bool) (st : State) : State :=
  {| description := description st; loading := b; results := results st;
     error := error st |}.

Definition setResults (r : option AvatarConfig.t) (st : State) : State :=
  {| description := description st; loading := loading st; results := r;
     error := error st |}.

Definition setError (e : string) (st : State) : State :=
  {| description := description st; loading := loading st;
     results := results st; error := e |}.

(** [handleGenerate]: the state once the handler has run.  The body of the
    [try] is the call of the mapper, whose completion decides between the
    branches below and the [catch]. *)
Definition handleGenerate (st : State) : State :=
  if String.eqb (JsString.trim (description st)) "" then
    setError "Please enter a description" st
  else
    let st := setLoading true st in
    let st := setError "" st in
    let st :=
      match Checked.buildAvatarConfig (description st) with
      | Checked.Normal avatarConfig =>
          if List.length (AvatarConfig.assets avatarConfig) =? 0 then
            setResults None
              (setError
                 "No matching assets found. Try a different description." st)
          else setResults (Some avatarConfig) st
      | Checked.TypeError =>
          setError "Failed to generate avatar configuration" st
      end in
    setLoading false st.

(** The rows of the result list: [results.assets.slice(0, 5)]. *)
Definition shownAssets (st : State) : list AssetMatch.t :=
  match results st with
  | Some r => firstn 5 (AvatarConfig.assets r)
  | None => []
  end.

End TextToAvatar.

(** A string of white space only (the empty string included). *)
Definition blank (s : string) : bool := forallb Js.isWhiteSpace (codeUnits s).

(** ** The character list of [App] *)

Module App.

(** The type [Character] of [./types], with the fields [App] reads and
    writes; [currentAnimation] may be [undefined]. *)
Record Character := mkCharacter {
  id : string;
  name : string;
  avatarUrl : string;
  currentAnimation : option string
}.

(** The three state variables of the component. *)
Record State := mkState {
  characters : list Character;
  showCreator : bool;
  selectedCharacterId : option string
}.

(** The item rpm-characters of [localStorage]: missing (or empty), text
    that [JSON.parse] or the filter rejects with an error, or the JSON text
    of an array of characters. *)
Inductive Stored : Type :=
| Absent
| Corrupt
| Parsed (parsedCharacters : list Character).

(** The component together with the storage of the browser. *)
Record World := mkWorld {
  ui : State;
  stored : Stored
}.

Definition initialState : State :=
  {| characters := []; showCreator := false; selectedCharacterId := None |}.

Definition setCharacters (cs : list Character) (st : State) : State :=
  {| characters := cs; showCreator := showCreator st;
     selectedCharacterId := selectedCharacterId st |}.

Definition setShowCreator (b : bool) (st : State) : State :=
  {| characters := characters st; showCreator := b;
     selectedCharacterId := selectedCharacterId st |}.

Definition setSelectedCharacterId (sel : option string) (st : State)
  : State :=
  {| characters := characters st; showCreator := showCreator st;
     selectedCharacterId := sel |}.

(** The test of the filter of the loading effect. *)
Definition keptOnLoad (char : Character) : bool :=
  negb (String.eqb (avatarUrl char) "")
  && (Js.includes (avatarUrl char) ".glb"
      || Js.includes (avatarUrl char) ".json")
  && negb (Js.includes (avatarUrl char) "outfit=outfit_").

(** [{ ...char, currentAnimation: 'idle' }]. *)
Definition forceIdle (char : Character) : Character :=
  {| id := id char; name := name char; avatarUrl := avatarUrl char;
     currentAnimation := Some "idle" |}.

Definition validCharacters (parsedCharacters : list Character)
  : list Character :=
  map forceIdle (filter keptOnLoad parsedCharacters).

(** The effect that loads the saved characters when the component
    mounts. *)
Definition loadEffect (w : World) : World :=
  match stored w with
  | Absent => w
  | Corrupt => {| ui := ui w; stored := Absent |}
  | Parsed parsedCharacters =>
      let valid := validCharacters parsedCharacters in
      {| ui := setCharacters valid (ui w);
         stored :=
           if List.length valid =? List.length parsedCharacters
           then stored w
           else Parsed valid |}
  end.

(** The effect that saves the characters whenever they change. *)
Definition saveEffect (w : World) : World :=
  if 0 <? List.length (characters (ui w))
  then {| ui := ui w; stored := Parsed (characters (ui w)) |}
  else w.

(** The component after it has mounted on a browser that stores [saved]. *)
Definition mount (saved : Stored) : World :=
  saveEffect (loadEffect {| ui := initialState; stored := saved |}).

(** The test that makes [addCharacter] refuse a URL. *)
Definition refused (avatarUrl : string) : bool :=
  String.eqb avatarUrl ""
  || negb (Js.includes avatarUrl ".glb")
  || Js.includes avatarUrl "outfit=outfit_".

(** [`Character ${n}`]. *)
Definition defaultName (n : nat) : string :=
  String.append "Character " (NilEmpty.string_of_uint (Nat.to_uint n)).

(** [name || defaultName]. *)
Definition nameOr (name : option string) (default : string) : string :=
  match name with
  | Some n => if String.eqb n "" then default else n
  | None => default
  end.

(** [addCharacter]; [uuid] is what [crypto.randomUUID()] returns. *)
Definition addCharacter (avatarUrl : string) (name : option string)
    (uuid : string) (st : State) : State :=
  if refused avatarUrl then st
  else
    let newCharacter :=
      {| id := uuid;
         name := nameOr name (defaultName (List.length (characters st) + 1));
         avatarUrl := avatarUrl;
         currentAnimation := Some "idle" |} in
    setShowCreator false
      (setSelectedCharacterId (Some (id newCharacter))
         (setCharacters (characters st ++ [newCharacter]) st)).

Definition updateCharacterAnimation (id' : string)
    (animationType : option string) (st : State) : State :=
  setCharacters
    (map (fun char =>
            if String.eqb (id char) id'
            then {| id := id char; name := name char;
                    avatarUrl := avatarUrl char;
                    currentAnimation := animationType |}
            else char)
       (characters st))
    st.

Definition removeCharacter (id' : string) (st : State) : State :=
  let st' :=
    setCharacters
      (filter (fun char => negb (String.eqb (id char) id')) (characters st))
      st in
  match selectedCharacterId st with
  | Some sel =>
      if String.eqb sel id' then setSelectedCharacterId None st' else st'
  | None => st'
  end.

(** [characters.find(c => c.id === selectedCharacterId)]. *)
Definition selectedCharacter (st : State) : option Character :=
  match selectedCharacterId st with
  | Some sel => find (fun c => String.eqb (id c) sel) (characters st)
  | None => None
  end.

(** What the user and the avatar creator can do to the rendered
    component. *)
Inductive Event : Type :=
| ClickCreate
| ClickCancel
| AvatarExported (url uuid : string)
| ClickCharacter (id' : string)
| ClickDelete (id' : string)
| AnimationChange (animationType : option string).

(** An event needs the element that raises it: a character row for a
    click on it or on its delete button, the creator panel for an export,
    the controls panel for a change of animation. *)
Definition enabled (ev : Event) (st : State) : Prop :=
  match ev with
  | ClickCreate | ClickCancel => True
  | AvatarExported _ _ => showCreator st = true
  | ClickCharacter id' | ClickDelete id' => In id' (map id (characters st))
  | AnimationChange _ =>
      selectedCharacter st <> None /\ showCreator st = false
  end.

(** The handler of an event. *)
Definition handle (ev : Event) (st : State) : State :=
  match ev with
  | ClickCreate => setShowCreator true st
  | ClickCancel => setShowCreator false st
  | AvatarExported url uuid => addCharacter url None uuid st
  | ClickCharacter id' => setSelectedCharacterId (Some id') st
  | ClickDelete id' => removeCharacter id' st
  | AnimationChange animationType =>
      match selectedCharacter st with
      | Some c => updateCharacterAnimation (id c) animationType st
      | None => st
      end
  end.

(** Whether the handler of the event calls [setCharacters], which makes
    the saving effect run after it. *)
Definition setsCharacters (ev : Event) (st : State) : bool :=
  match ev with
  | AvatarExported url _ => negb (refused url)
  | ClickDelete _ => true
  | AnimationChange _ =>
      match selectedCharacter st with
      | Some _ => true
      | None => false
      end
  | ClickCreate | ClickCancel | ClickCharacter _ => false
  end.

(** An event: its handler, then the saving effect if the characters were
    set. *)
Definition step (ev : Event) (w : World) : World :=
  let w' := {| ui := handle ev (ui w); stored := stored w |} in
  if setsCharacters ev (ui w) then saveEffect w' else w'.

Inductive reachable : World -> Prop :=
| reach_mount (saved : Stored) : reachable (mount saved)
| reach_step (ev : Event) (w : World) :
    reachable w -> enabled ev (ui w) -> reachable (step ev w).

End App.

(** What holds of the component and the storage after every event: every
    character would pass the filter of the loading effect, the selected id
    is the id of a listed character, and a list that is not empty is the
    list in the storage. *)
Definition AppInv (w : App.World) : Prop :=
  Forall (fun c => App.keptOnLoad c = true) (App.characters (App.ui w))
  /\ (forall sel,
        App.selectedCharacterId (App.ui w) = Some sel ->
        In sel (map App.id (App.characters (App.ui w))))
  /\ (App.characters (App.ui w) <> [] ->
      App.stored w = App.Parsed (App.characters (App.ui w))).

(** ** Keeping the avatar in place ([FinalAnimator], [loadAnimation]) *)

Module FinalAnimator.

Section KeepInPlace.

(** The elements of a typed array of numbers, and the number 0. *)
Variable number : Type.
Variable zero : number.






End KeepInPlace.

End FinalAnimator.

(** ** Tokens *)

Definition nonEmpty (w : string) : bool := negb (String.eqb w "").

(** The tokens of a description: the pieces of [split], without the empty
    pieces a white-space run at either end leaves. *)
Definition tokens (s : string) : list string :=
  filter nonEmpty (Js.split_ws s).

(** The record [extractSearchTerms] builds from the list [words]. *)
Definition termsOf (words : list string) : SearchTerms.t :=
  {| SearchTerms.colors := filter (Js.arr_includes colors) words;
     SearchTerms.materials := filter (Js.arr_includes materials) words;
     SearchTerms.types := filter (Js.arr_includes clothingTypes) words;
     SearchTerms.styles := filter (Js.arr_includes styles) words;
     SearchTerms.gender := filter (Js.arr_includes genderTerms) words;
     SearchTerms.keywords := words |}.

(** The list [l] with [cur] put in front of its first piece. *)
Definition consHead (cur : string) (l : list string) : list string :=
  match l with
  | [] => []
  | piece :: pieces => String.append cur piece :: pieces
  end.

(** The token [cur], if it is one. *)
Definition emit (cur : string) : list string :=
  if nonEmpty cur then [cur] else [].

(** The tokens of [s] read from left to right, [cur] being the token that
    is open when the reading starts. *)
Fixpoint tokensFrom (cur : string) (s : string) : list string :=
  match s with
  | EmptyString => emit cur
  | String c s' =>
      if Js.isWhiteSpace c then emit cur ++ tokensFrom EmptyString s'
      else tokensFrom (String.append cur (String c EmptyString)) s'
  end.

(** * Properties *)

(** ** Strings *)

Section StringFacts.

Lemma prefix_refl (s : string) : prefix s s = true.
Proof.
  induction s as [|c s IH]; simpl; [reflexivity|].
  destruct (ascii_dec c c); [exact IH | congruence].
Qed.

Lemma includes_refl (s : string) : Js.includes s s = true.
Proof.
  destruct s; simpl; [reflexivity|].
  rewrite prefix_refl.
  destruct (ascii_dec a a); [reflexivity | congruence].
Qed.

Lemma arr_includes_In (arr : list string) (x : string) :
  Js.arr_includes arr x = true <-> In x arr.
Proof.
  unfold Js.arr_includes. rewrite existsb_exists. split.
  - intros (y & Hy & E). apply String.eqb_eq in E. now subst.
  - intros H. exists x. split; [exact H | apply String.eqb_refl].
Qed.

End StringFacts.

(** ** Plain objects *)

Section ObjFacts.
Context {V : Type}.
Implicit Types (o : Js.obj V) (k : string) (v : V).

Lemma get_Some_In o k v : Js.get o k = Some v -> In (k, v) o.
Proof.
  induction o as [|[k' v'] o IH]; simpl; [discriminate|].
  destruct (String.eqb_spec k k') as [->|_].
  - intros [= ->]. now left.
  - intros H. right. now apply IH.
Qed.

Lemma get_None_keys o k : Js.get o k = None <-> ~ In k (Js.keys o).
Proof.
  induction o as [|[k' v'] o IH]; simpl; [tauto|].
  destruct (String.eqb_spec k k') as [->|N].
  - split; [discriminate | intros H; exfalso; apply H; now left].
  - rewrite IH. split; [intros H [E|I]; [congruence | tauto] | tauto].
Qed.

Lemma In_get o k v :
  NoDup (Js.keys o) -> In (k, v) o -> Js.get o k = Some v.
Proof.
  induction o as [|[k' v'] o IH]; simpl; [tauto|].
  intros ND [E|I].
  - injection E as -> ->. now rewrite String.eqb_refl.
  - inversion ND as [|? ? Hk ND']; subst.
    destruct (String.eqb_spec k k') as [->|_].
    + exfalso. apply Hk. apply (in_map fst) in I. exact I.
    + now apply IH.
Qed.

Lemma set_absent o k v :
  Js.get o k = None -> Js.set o k v = o ++ [(k, v)].
Proof.
  induction o as [|[k' v'] o IH]; simpl; [reflexivity|].
  destruct (String.eqb_spec k k'); [discriminate|].
  intros H. now rewrite IH.
Qed.

Lemma keys_set_present o k v :
  Js.get o k <> None -> Js.keys (Js.set o k v) = Js.keys o.
Proof.
  induction o as [|[k' v'] o IH]; simpl; [congruence|].
  destruct (String.eqb_spec k k'); simpl; [reflexivity|].
  intros H. now rewrite IH.
Qed.

Lemma In_set o k v k' v' :
  NoDup (Js.keys o) ->
  In (k', v') (Js.set o k v) ->
  (k' = k /\ v' = v) \/ (k' <> k /\ In (k', v') o).
Proof.
  induction o as [|[k0 v0] o IH]; simpl.
  - intros _ [[= <- <-]|[]]. now left.
  - intros ND. inversion ND as [|? ? Hk ND']; subst.
    destruct (String.eqb_spec k k0) as [->|N]; simpl.
    + intros [[= <- <-]|I]; [now left|].
      right. split; [|now right].
      intros ->. apply Hk. apply (in_map fst) in I. exact I.
    + intros [[= <- <-]|I].
      * right. split; [congruence | now left].
      * destruct (IH ND' I) as [?|[? ?]]; [now left | right; auto].
Qed.

Lemma In_set_same o k v : In (k, v) (Js.set o k v).
Proof.
  induction o as [|[k0 v0] o IH]; simpl; [now left|].
  destruct (String.eqb_spec k k0) as [->|N]; simpl; [now left | now right].
Qed.

Lemma In_set_other o k v k' v' :
  k' <> k -> In (k', v') o -> In (k', v') (Js.set o k v).
Proof.
  intros N. induction o as [|[k0 v0] o IH]; simpl; [tauto|].
  destruct (String.eqb_spec k k0) as [->|N0]; simpl.
  - intros [[= <- <-]|I]; [congruence | now right].
  - intros [E|I]; [now left | right; auto].
Qed.

Lemma keys_set o k v :
  Js.keys (Js.set o k v)
  = match Js.get o k with
    | Some _ => Js.keys o
    | None => Js.keys o ++ [k]
    end.
Proof.
  destruct (Js.get o k) eqn:G.
  - apply keys_set_present. congruence.
  - rewrite (set_absent _ _ _ G). unfold Js.keys. now rewrite map_app.
Qed.

Lemma NoDup_keys_set o k v :
  NoDup (Js.keys o) -> NoDup (Js.keys (Js.set o k v)).
Proof.
  intros ND. rewrite keys_set. destruct (Js.get o k) eqn:G; [exact ND|].
  apply get_None_keys in G.
  apply NoDup_app; [exact ND | constructor; [tauto | constructor] |].
  intros x Hx [<-|[]]. contradiction.
Qed.

Lemma get_set o k v k' :
  Js.get (Js.set o k v) k' = if String.eqb k' k then Some v else Js.get o k'.
Proof.
  induction o as [|[k0 v0] o IH]; simpl.
  - reflexivity.
  - destruct (String.eqb_spec k k0) as [->|N]; simpl.
    + destruct (String.eqb_spec k' k0); reflexivity.
    + rewrite IH. destruct (String.eqb_spec k' k0) as [->|N'];
        [|reflexivity].
      destruct (String.eqb_spec k0 k); [congruence | reflexivity].
Qed.

End ObjFacts.

(** ** The stable sort *)

Section BeforeFacts.
Context {A B : Type}.

Lemma Before_In (x y : A) (l : list A) : Before x y l -> In x l /\ In y l.
Proof.
  induction 1 as [l H|z l _ [IHx IHy]]; simpl; auto.
Qed.

Lemma Before_split (x y : A) (l : list A) :
  Before x y l <-> exists l1 l2 l3, l = l1 ++ x :: l2 ++ y :: l3.
Proof.
  split.
  - induction 1 as [l H|z l _ (l1 & l2 & l3 & ->)].
    + apply in_split in H as (l2 & l3 & ->). now exists [], l2, l3.
    + now exists (z :: l1), l2, l3.
  - intros (l1 & l2 & l3 & ->).
    induction l1 as [|z l1 IH]; simpl.
    + constructor. apply in_or_app. right. now left.
    + now constructor.
Qed.

Lemma Before_firstn (x y : A) (n : nat) (l : list A) :
  Before x y (firstn n l) -> Before x y l.
Proof.
  revert l. induction n as [|n IH]; intros [|z l]; simpl; intros H;
    try solve [inversion H].
  inversion H as [l' I|z' l' H']; subst.
  - constructor. rewrite <- (firstn_skipn n l). apply in_or_app. now left.
  - constructor 2. now apply IH.
Qed.

Lemma Before_filter (p : A -> bool) (x y : A) (l : list A) :
  Before x y (filter p l) -> Before x y l.
Proof.
  induction l as [|z l IH]; simpl; [inversion 1|].
  destruct (p z).
  - intros H. inversion H as [l' I|z' l' H']; subst.
    + constructor. apply filter_In in I. tauto.
    + constructor 2. auto.
  - intros H. constructor 2. auto.
Qed.

Lemma Before_map_inv (f : A -> B) (u v : B) (l : list A) :
  Before u v (map f l) ->
  exists x y, u = f x /\ v = f y /\ Before x y l.
Proof.
  induction l as [|z l IH]; simpl; intros H; inversion H as [l' I|z' l' H'];
    subst.
  - apply in_map_iff in I as (y & <- & I). exists z, y. repeat split.
    now constructor.
  - destruct (IH H') as (x & y & -> & -> & HB).
    exists x, y. repeat split. now constructor 2.
Qed.

Lemma Before_map (f : A -> B) (x y : A) (l : list A) :
  Before x y l -> Before (f x) (f y) (map f l).
Proof.
  induction 1 as [l I|z l _ IH]; simpl.
  - constructor. now apply in_map.
  - now constructor 2.
Qed.

End BeforeFacts.

Section SortFacts.
Context {A : Type} (key : A -> nat).

Lemma In_insert_desc (x y : A) (l : list A) :
  In y (Js.insert_desc key x l) <-> y = x \/ In y l.
Proof.
  induction l as [|z l IH]; simpl.
  - intuition.
  - destruct (key z <=? key x); simpl; [intuition|].
    rewrite IH. intuition.
Qed.

Lemma In_sort_desc (y : A) (l : list A) :
  In y (Js.sort_desc key l) <-> In y l.
Proof.
  induction l as [|x l IH]; simpl; [tauto|].
  rewrite In_insert_desc, IH. intuition.
Qed.

Lemma length_insert_desc (x : A) (l : list A) :
  List.length (Js.insert_desc key x l) = S (List.length l).
Proof.
  induction l as [|z l IH]; simpl; [reflexivity|].
  destruct (key z <=? key x); simpl; [reflexivity | now rewrite IH].
Qed.

Lemma length_sort_desc (l : list A) :
  List.length (Js.sort_desc key l) = List.length l.
Proof.
  induction l as [|x l IH]; simpl; [reflexivity|].
  now rewrite length_insert_desc, IH.
Qed.

Lemma insert_desc_descending (x : A) (l : list A) :
  descending key l -> descending key (Js.insert_desc key x l).
Proof.
  unfold descending. induction l as [|z l IH]; simpl; intros HS.
  - repeat constructor.
  - inversion HS as [|? ? HS' HF]; subst.
    destruct (Nat.leb_spec (key z) (key x)) as [L|L].
    + constructor; [exact HS|].
      constructor; [exact L|].
      eapply Forall_impl; [|exact HF]. simpl. intros. lia.
    + constructor; [auto|].
      apply Forall_forall. intros y Hy.
      apply In_insert_desc in Hy as [->|Hy]; [lia|].
      rewrite Forall_forall in HF. auto.
Qed.

Lemma sort_desc_descending (l : list A) :
  descending key (Js.sort_desc key l).
Proof.
  induction l as [|x l IH]; simpl.
  - constructor.
  - now apply insert_desc_descending.
Qed.

Lemma firstn_descending (n : nat) (l : list A) :
  descending key l -> descending key (firstn n l).
Proof.
  unfold descending. revert l.
  induction n as [|n IH]; intros [|x l] HS; simpl; try constructor.
  - apply IH. now inversion HS.
  - inversion HS as [|? ? _ HF]; subst.
    rewrite Forall_forall in *. intros y Hy. apply HF.
    rewrite <- (firstn_skipn n l). apply in_or_app. now left.
Qed.

(** Where two elements can stand after an insertion. *)
Lemma Before_insert_desc (a b x : A) (l : list A) :
  Before a b (Js.insert_desc key x l) ->
  Before a b l \/ (a = x /\ In b l) \/ (b = x /\ key x < key a).
Proof.
  induction l as [|z l IH]; simpl; intros H.
  - inversion H as [l' I|z' l' H']; subst; [destruct I | inversion H'].
  - destruct (Nat.leb_spec (key z) (key x)) as [L|L].
    + inversion H as [l' I|z' l' H']; subst; [|now left].
      right. left. split; [reflexivity | exact I].
    + inversion H as [l' I|z' l' H']; subst.
      * apply In_insert_desc in I as [->|I].
        -- right. right. split; [reflexivity | exact L].
        -- left. now constructor.
      * destruct (IH H') as [HB|[[-> I]|[-> Hk]]].
        -- left. now constructor 2.
        -- right. left. split; [reflexivity | now right].
        -- right. right. split; [reflexivity | exact Hk].
Qed.

(** Stability: elements with equal keys keep their relative order. *)
Lemma sort_desc_stable (a b : A) (l : list A) :
  key a = key b -> Before a b (Js.sort_desc key l) -> Before a b l.
Proof.
  intros E. induction l as [|x l IH]; simpl; intros H.
  - inversion H.
  - apply Before_insert_desc in H as [HB|[[-> I]|[-> Hk]]].
    + constructor 2. auto.
    + constructor. now rewrite In_sort_desc in I.
    + lia.
Qed.

End SortFacts.

(** ** The scorer, pass by pass *)

Section ScorerFacts.

Lemma forEachHit_count (weight : nat) (hit : string -> bool)
    (tokens : list string) (score : nat) :
  forEachHit weight hit tokens score
  = score + weight * List.length (filter hit tokens).
Proof.
  unfold forEachHit. revert score.
  induction tokens as [|t tokens IH]; intros score; simpl; [lia|].
  rewrite IH. destruct (hit t); simpl; lia.
Qed.

Lemma forEachHit_no_hit (weight : nat) (hit : string -> bool)
    (tokens : list string) (score : nat) :
  (forall t, In t tokens -> hit t = false) ->
  forEachHit weight hit tokens score = score.
Proof.
  intros H. rewrite forEachHit_count.
  replace (filter hit tokens) with (@nil string); [simpl; lia|].
  symmetry. induction tokens as [|t tokens IH]; simpl; [reflexivity|].
  rewrite (H t (or_introl eq_refl)). apply IH. intros; apply H; now right.
Qed.

Lemma calculateMatchScore_passes (asset : Asset.t)
    (searchTerms : SearchTerms.t) :
  calculateMatchScore asset searchTerms
  = keywordPass (Js.toLowerCase (Asset.name asset)) (Asset.tags asset)
      (SearchTerms.keywords searchTerms) (bucketScore asset searchTerms).
Proof. reflexivity. Qed.

End ScorerFacts.

(** ** [findAssets] *)

Section FindAssetsFacts.
Variable assets : Js.obj Asset.t.
Variable searchTerms : SearchTerms.t.

Lemma fold_pushIfMatch (entries : Js.obj Asset.t)
    (matches : list AssetMatch.t) :
  fold_left (pushIfMatch searchTerms) entries matches
  = matches ++ filter positive (map (toMatch searchTerms) entries).
Proof.
  revert matches.
  induction entries as [|[id asset] entries IH]; intros matches; simpl.
  - now rewrite app_nil_r.
  - rewrite IH. unfold positive at 2. unfold toMatch at 2. simpl.
    destruct (0 <? calculateMatchScore asset searchTerms);
      [now rewrite <- app_assoc | reflexivity].
Qed.

Lemma collectMatches_filter :
  collectMatches assets searchTerms
  = filter positive (map (toMatch searchTerms) assets).
Proof. unfold collectMatches. now rewrite fold_pushIfMatch. Qed.

Lemma In_collectMatches (m : AssetMatch.t) :
  In m (collectMatches assets searchTerms) <->
  0 < AssetMatch.score m /\
  exists entry, In entry assets /\ m = toMatch searchTerms entry.
Proof.
  rewrite collectMatches_filter, filter_In, in_map_iff.
  unfold positive. rewrite Nat.ltb_lt.
  split.
  - intros [(e & <- & I) P]. split; [exact P|]. now exists e.
  - intros [P (e & I & ->)]. split; [now exists e | exact P].
Qed.

Lemma length_collectMatches :
  List.length (collectMatches assets searchTerms) <= List.length assets.
Proof.
  rewrite collectMatches_filter.
  etransitivity; [apply filter_length_le | now rewrite length_map].
Qed.

End FindAssetsFacts.

Lemma In_findAssetsIn (assets : Js.obj Asset.t) (description : string)
    (m : AssetMatch.t) :
  In m (findAssetsIn assets description) ->
  In m (collectMatches assets (extractSearchTerms description)).
Proof.
  unfold findAssetsIn. intros H.
  apply (In_sort_desc AssetMatch.score).
  rewrite <- (firstn_skipn 10). apply in_or_app. now left.
Qed.

(** C4: [findAssets] returns at most 10 matches, and every returned match
    carries a positive score, which is the score [calculateMatchScore] gives
    its table entry; so an entry that scores 0 is never returned. *)
Theorem findAssets_at_most_ten_positive (description : string) :
  List.length (findAssets description) <= 10 /\
  Forall
    (fun m =>
       0 < AssetMatch.score m /\
       exists asset,
         In (AssetMatch.id m, asset) SAMPLE_ASSETS /\
         AssetMatch.score m
         = calculateMatchScore asset (extractSearchTerms description))
    (findAssets description).
Proof.
  split.
  - unfold findAssets, findAssetsIn. apply firstn_le_length.
  - apply Forall_forall. intros m Hm.
    apply In_findAssetsIn, In_collectMatches in Hm
      as [P ([id asset] & I & ->)].
    split; [exact P|]. exists asset. split; [exact I | reflexivity].
Qed.

Lemma findAssetsIn_descending (assets : Js.obj Asset.t)
    (description : string) :
  descending AssetMatch.score (findAssetsIn assets description).
Proof.
  unfold findAssetsIn. apply firstn_descending, sort_desc_descending.
Qed.

Lemma findAssetsIn_stable (assets : Js.obj Asset.t) (description : string)
    (a b : AssetMatch.t) :
  Before a b (findAssetsIn assets description) ->
  AssetMatch.score a = AssetMatch.score b ->
  Before (AssetMatch.id a) (AssetMatch.id b) (Js.keys assets).
Proof.
  unfold findAssetsIn. intros H E.
  apply Before_firstn, (sort_desc_stable _ _ _ _ E) in H.
  rewrite collectMatches_filter in H.
  apply Before_filter, Before_map_inv in H as (e1 & e2 & -> & -> & H).
  exact (Before_map fst _ _ _ H).
Qed.

(** C5: the matches [findAssets] returns are in non-increasing order of
    score, and two returned matches with equal scores stand in the order in
    which their ids were inserted in the asset table. *)
Theorem findAssets_sorted_stable (description : string) :
  descending AssetMatch.score (findAssets description) /\
  forall a b : AssetMatch.t,
    Before a b (findAssets description) ->
    AssetMatch.score a = AssetMatch.score b ->
    Before (AssetMatch.id a) (AssetMatch.id b) (Js.keys SAMPLE_ASSETS).
Proof.
  split.
  - apply findAssetsIn_descending.
  - apply findAssetsIn_stable.
Qed.

(** The jeans and the suit both score 11 for this description; the jeans
    come first in the table and first in the result. *)
Lemma findAssets_sorted_stable_witness :
  Before
    (AssetMatch.mk "outfit_blue_jeans" "Blue Denim Jeans" "bottom" 11
       ["male"; "female"])
    (AssetMatch.mk "outfit_business_suit" "Business Suit" "outfit" 11
       ["male"; "female"])
    (findAssets "leather jacket jeans") /\
  Before "outfit_blue_jeans" "outfit_business_suit" (Js.keys SAMPLE_ASSETS).
Proof.
  assert (HB : Before
    (AssetMatch.mk "outfit_blue_jeans" "Blue Denim Jeans" "bottom" 11
       ["male"; "female"])
    (AssetMatch.mk "outfit_business_suit" "Business Suit" "outfit" 11
       ["male"; "female"])
    (findAssets "leather jacket jeans")).
  { vm_compute. constructor 2. constructor. now left. }
  split; [exact HB|].
  exact (proj2 (findAssets_sorted_stable "leather jacket jeans")
           _ _ HB eq_refl).
Defined.

(** ** Grouping by type *)

Section GroupFacts.

Lemma firstBestOfType_bound (m x : AssetMatch.t) (l : list AssetMatch.t) :
  firstBestOfType m l -> In x l ->
  AssetMatch.type x = AssetMatch.type m ->
  AssetMatch.score x <= AssetMatch.score m.
Proof.
  intros (l1 & l2 & -> & H1 & H2) I E.
  apply in_app_or in I as [I|[<-|I]].
  - apply Nat.lt_le_incl. auto.
  - apply Nat.le_refl.
  - auto.
Qed.

Lemma firstBestOfType_later (m a : AssetMatch.t) (l : list AssetMatch.t) :
  firstBestOfType m l ->
  (AssetMatch.type a = AssetMatch.type m ->
   AssetMatch.score a <= AssetMatch.score m) ->
  firstBestOfType m (l ++ [a]).
Proof.
  intros (l1 & l2 & -> & H1 & H2) Ha.
  exists l1, (l2 ++ [a]). split; [|split].
  - now rewrite <- app_assoc.
  - exact H1.
  - intros x I E. apply in_app_or in I as [I|[<-|[]]]; auto.
Qed.

Lemma firstBestOfType_new (a : AssetMatch.t) (l : list AssetMatch.t) :
  (forall x, In x l -> AssetMatch.type x = AssetMatch.type a ->
             AssetMatch.score x < AssetMatch.score a) ->
  firstBestOfType a (l ++ [a]).
Proof.
  intros H. exists l, []. split; [reflexivity|]. split; [exact H|].
  intros x [].
Qed.

Lemma keepBest_inv (seen : list AssetMatch.t) (o : Js.obj AssetMatch.t)
    (a : AssetMatch.t) :
  GroupInv seen o -> GroupInv (seen ++ [a]) (keepBest o a).
Proof.
  intros (ND & Hent & Hcov). unfold keepBest.
  destruct (Js.get o (AssetMatch.type a)) as [best|] eqn:G.
  - pose proof (get_Some_In _ _ _ G) as Ibest.
    destruct (Hent _ _ Ibest) as [Tbest Bbest].
    assert (Ka : In (AssetMatch.type a) (Js.keys o)).
    { apply (in_map fst) in Ibest. exact Ibest. }
    destruct (Nat.ltb_spec (AssetMatch.score best) (AssetMatch.score a))
      as [L|L].
    + split; [now apply NoDup_keys_set|]. split.
      * intros k m I. apply (In_set _ _ _ _ _ ND) in I as [[-> ->]|[N I]].
        -- split; [reflexivity|]. apply firstBestOfType_new.
           intros x Ix Ex.
           eapply Nat.le_lt_trans; [|exact L].
           apply (firstBestOfType_bound best x seen Bbest Ix). congruence.
        -- destruct (Hent _ _ I) as [Tm Bm]. split; [exact Tm|].
           apply firstBestOfType_later; [exact Bm | congruence].
      * intros x Ix. rewrite keys_set, G.
        apply in_app_or in Ix as [Ix|[<-|[]]]; auto.
    + split; [exact ND|]. split.
      * intros k m I. destruct (Hent _ _ I) as [Tm Bm]. split; [exact Tm|].
        apply firstBestOfType_later; [exact Bm|].
        intros E. rewrite E, Tm in G.
        rewrite (In_get _ _ _ ND I) in G. injection G as ->. exact L.
      * intros x Ix. apply in_app_or in Ix as [Ix|[<-|[]]]; auto.
  - pose proof (proj1 (get_None_keys _ _) G) as Ka.
    split; [now apply NoDup_keys_set|]. split.
    + intros k m I. rewrite (set_absent _ _ _ G) in I.
      apply in_app_or in I as [I|[[= <- <-]|[]]].
      * destruct (Hent _ _ I) as [Tm Bm]. split; [exact Tm|].
        apply firstBestOfType_later; [exact Bm|].
        intros E. exfalso. apply Ka. rewrite E, Tm.
        apply (in_map fst) in I. exact I.
      * split; [reflexivity|]. apply firstBestOfType_new.
        intros x Ix Ex. exfalso. apply Ka. rewrite <- Ex. auto.
    + intros x Ix. rewrite keys_set, G. apply in_or_app.
      apply in_app_or in Ix as [Ix|[<-|[]]]; [left; auto | right; now left].
Qed.

Lemma fold_keepBest_inv (l seen : list AssetMatch.t)
    (o : Js.obj AssetMatch.t) :
  GroupInv seen o -> GroupInv (seen ++ l) (fold_left keepBest l o).
Proof.
  revert seen o. induction l as [|a l IH]; intros seen o H; simpl.
  - now rewrite app_nil_r.
  - replace (seen ++ a :: l) with ((seen ++ [a]) ++ l)
      by now rewrite <- app_assoc.
    apply IH, keepBest_inv, H.
Qed.

Lemma groupByType_inv (l : list AssetMatch.t) : GroupInv l (groupByType l).
Proof.
  apply (fold_keepBest_inv l [] []).
  split; [constructor|]. split; intros; contradiction.
Qed.

Lemma groupByType_types (l : list AssetMatch.t) :
  map AssetMatch.type (Js.values (groupByType l)) = Js.keys (groupByType l).
Proof.
  destruct (groupByType_inv l) as (_ & Hent & _).
  revert Hent. generalize (groupByType l) as o.
  induction o as [|[k m] o IH]; simpl; intros Hent; [reflexivity|].
  f_equal.
  - apply (Hent k m). now left.
  - apply IH. intros k' m' I. apply Hent. now right.
Qed.

End GroupFacts.

(** C8: the field [assets] of the result of [buildAvatarConfig] holds at
    most one match per type; each match it holds is, among the matches
    [findAssets] returns, the best-scoring one of its type, the first one
    where several score the same; and every type [findAssets] returns is
    represented. *)
Theorem buildAvatarConfig_best_per_type (description : string) :
  NoDup
    (map AssetMatch.type (AvatarConfig.assets (buildAvatarConfig description)))
  /\ Forall (fun m => firstBestOfType m (findAssets description))
       (AvatarConfig.assets (buildAvatarConfig description))
  /\ Forall
       (fun x =>
          In (AssetMatch.type x)
            (map AssetMatch.type
               (AvatarConfig.assets (buildAvatarConfig description))))
       (findAssets description).
Proof.
  unfold buildAvatarConfig, buildAvatarConfigIn. simpl.
  fold (findAssets description).
  rewrite groupByType_types.
  destruct (groupByType_inv (findAssets description)) as (ND & Hent & Hcov).
  split; [exact ND|]. split.
  - apply Forall_forall. intros m Hm.
    apply in_map_iff in Hm as ([k m'] & <- & I). apply (Hent k m' I).
  - apply Forall_forall. exact Hcov.
Qed.

(** ** The configuration object *)

Section ConfigFacts.

Lemma descending_app {A : Type} (key : A -> nat) (l1 l2 : list A) :
  descending key (l1 ++ l2) <->
  descending key l1 /\ descending key l2 /\
  forall x y, In x l1 -> In y l2 -> key y <= key x.
Proof.
  unfold descending. induction l1 as [|a l1 IH]; simpl.
  - split; [intros H; repeat split; [constructor | exact H | tauto] | tauto].
  - split.
    + intros H. inversion H as [|? ? HS HF]; subst.
      apply IH in HS as (H1 & H2 & H12).
      rewrite Forall_forall in HF.
      split; [|split; [exact H2|]].
      * constructor; [exact H1|]. apply Forall_forall. intros y Hy.
        apply HF, in_or_app. now left.
      * intros x y [<-|Hx] Hy; [apply HF, in_or_app; now right | auto].
    + intros (H1 & H2 & H12). inversion H1 as [|? ? HS HF]; subst.
      constructor.
      * apply IH. repeat split; auto.
      * rewrite Forall_forall in *. intros y Hy.
        apply in_app_or in Hy as [Hy|Hy]; auto.
Qed.

(** In a result that is sorted already no entry of [assetsByType] is ever
    replaced, and the retained matches come out sorted too. *)
Lemma fold_keepBest_descending (l : list AssetMatch.t)
    (o : Js.obj AssetMatch.t) :
  descending AssetMatch.score (Js.values o ++ l) ->
  descending AssetMatch.score (Js.values (fold_left keepBest l o)).
Proof.
  revert o. induction l as [|a l IH]; intros o H; simpl.
  - now rewrite app_nil_r in H.
  - apply IH. unfold keepBest.
    destruct (Js.get o (AssetMatch.type a)) as [best|] eqn:G.
    + apply descending_app in H as (H1 & H2 & H12).
      assert (Hle : AssetMatch.score a <= AssetMatch.score best).
      { apply H12; [|now left].
        apply get_Some_In, (in_map snd) in G. exact G. }
      destruct (Nat.ltb_spec (AssetMatch.score best) (AssetMatch.score a));
        [lia|].
      apply descending_app. split; [exact H1|]. split.
      * now inversion H2.
      * intros x y Hx Hy. apply H12; [exact Hx | now right].
    + rewrite (set_absent _ _ _ G). unfold Js.values. rewrite map_app.
      simpl. now rewrite <- app_assoc.
Qed.

Lemma groupByType_descending (l : list AssetMatch.t) :
  descending AssetMatch.score l ->
  descending AssetMatch.score (Js.values (groupByType l)).
Proof. intros H. now apply fold_keepBest_descending. Qed.

Lemma NoDup_keys_fold_putConfig (entries : Js.obj AssetMatch.t)
    (config : Js.obj string) :
  NoDup (Js.keys config) ->
  NoDup (Js.keys (fold_left putConfig entries config)).
Proof.
  revert config.
  induction entries as [|[type asset] entries IH]; intros config H; simpl;
    [exact H|].
  apply IH. destruct (mapTypeToConfigKey type); [|exact H].
  now apply NoDup_keys_set.
Qed.

(** The value under a key is the one written last. *)
Lemma get_fold_putConfig (entries : Js.obj AssetMatch.t)
    (config : Js.obj string) (key id : string) :
  Js.get (fold_left putConfig entries config) key = Some id ->
  (Js.get config key = Some id /\
   forall e, In e entries -> mapTypeToConfigKey (fst e) <> Some key)
  \/ exists l1 e l2,
       entries = l1 ++ e :: l2 /\
       mapTypeToConfigKey (fst e) = Some key /\
       AssetMatch.id (snd e) = id /\
       forall x, In x l2 -> mapTypeToConfigKey (fst x) <> Some key.
Proof.
  revert config.
  induction entries as [|[type asset] entries IH]; intros config H; simpl in *.
  - left. split; [exact H | tauto].
  - destruct (IH _ H) as [[G Hno]|(l1 & e & l2 & -> & K & E & Hno)].
    + destruct (mapTypeToConfigKey type) as [configKey|] eqn:M.
      * rewrite get_set in G.
        destruct (String.eqb_spec key configKey) as [->|N].
        -- injection G as <-. right.
           exists [], (type, asset), entries. repeat split; auto.
        -- left. split; [exact G|].
           intros e [<-|I]; [simpl; congruence | auto].
      * left. split; [exact G|].
        intros e [<-|I]; [simpl; congruence | auto].
    + right. exists ((type, asset) :: l1), e, l2. repeat split; auto.
Qed.

Lemma get_putConfig_keeps (config : Js.obj string)
    (e : string * AssetMatch.t) (key : string) :
  Js.get config key <> None -> Js.get (putConfig config e) key <> None.
Proof.
  destruct e as [type asset]. simpl.
  destruct (mapTypeToConfigKey type); [|tauto].
  rewrite get_set. destruct (String.eqb key s); [discriminate | tauto].
Qed.

Lemma get_fold_putConfig_keeps (entries : Js.obj AssetMatch.t)
    (config : Js.obj string) (key : string) :
  Js.get config key <> None ->
  Js.get (fold_left putConfig entries config) key <> None.
Proof.
  revert config. induction entries as [|e entries IH]; intros config H;
    simpl; [exact H|].
  apply IH, get_putConfig_keeps, H.
Qed.

Lemma get_fold_putConfig_written (entries : Js.obj AssetMatch.t)
    (config : Js.obj string) (e : string * AssetMatch.t) (key : string) :
  In e entries -> mapTypeToConfigKey (fst e) = Some key ->
  Js.get (fold_left putConfig entries config) key <> None.
Proof.
  revert config. induction entries as [|e' entries IH]; intros config I K;
    simpl; [contradiction|].
  destruct I as [->|I]; [|now apply (IH _ I)].
  apply get_fold_putConfig_keeps. destruct e as [type asset]. simpl in *.
  rewrite K, get_set, String.eqb_refl. discriminate.
Qed.

End ConfigFacts.

(** C1, counterexample: for "leather jacket jeans" the retained matches are
    the jacket (type outfit, score 17) and the jeans (type bottom, score 11);
    both types map to the key outfit, the jeans are written last, and the
    key ends up holding the jeans. *)
Lemma configHoldsHighest_fails :
  ~ configHoldsHighest (buildAvatarConfig "leather jacket jeans").
Proof.
  intros [_ H].
  destruct (H "outfit" "outfit_blue_jeans" eq_refl) as (m & I & _ & E & Hmax).
  assert (J : In (AssetMatch.mk "outfit_leather_jacket_black"
                    "Black Leather Jacket" "outfit" 17 ["male"; "female"])
                 (AvatarConfig.assets
                    (buildAvatarConfig "leather jacket jeans"))).
  { vm_compute. now left. }
  specialize (Hmax _ J eq_refl).
  vm_compute in I. destruct I as [<-|[<-|[]]].
  - discriminate E.
  - vm_compute in Hmax. lia.
Qed.

(** C1, amended: the configuration object has at most one entry per key;
    the id under a key is that of the last retained match, in the order of
    the field [assets], whose type maps to the key; that match is the best
    match of its own type, and it scores no more than any other retained
    match whose type maps to the key; and every key some retained match
    maps to is present. *)
Theorem buildAvatarConfig_config_last_write (description : string) :
  NoDup (Js.keys (AvatarConfig.config (buildAvatarConfig description)))
  /\ (forall key id : string,
        Js.get (AvatarConfig.config (buildAvatarConfig description)) key
        = Some id ->
        exists l1 m l2,
          AvatarConfig.assets (buildAvatarConfig description)
          = l1 ++ m :: l2 /\
          mapsToKey key m /\ AssetMatch.id m = id /\
          firstBestOfType m (findAssets description) /\
          (forall x, In x l2 -> ~ mapsToKey key x) /\
          (forall x,
             In x (AvatarConfig.assets (buildAvatarConfig description)) ->
             mapsToKey key x -> AssetMatch.score m <= AssetMatch.score x))
  /\ (forall (key : string) (m : AssetMatch.t),
        In m (AvatarConfig.assets (buildAvatarConfig description)) ->
        mapsToKey key m ->
        Js.get (AvatarConfig.config (buildAvatarConfig description)) key
        <> None).
Proof.
  unfold buildAvatarConfig, buildAvatarConfigIn, buildConfig. simpl.
  fold (findAssets description).
  pose proof (groupByType_inv (findAssets description)) as (_ & Hent & _).
  pose proof (groupByType_descending (findAssets description)
                (findAssetsIn_descending _ _)) as HS.
  revert Hent HS. generalize (groupByType (findAssets description)) as o.
  intros o Hent HS. split; [|split].
  - apply NoDup_keys_fold_putConfig. constructor.
  - intros key id G.
    apply get_fold_putConfig in G
      as [[G _]|(l1 & [k m] & l2 & -> & K & E & Hno)]; [discriminate|].
    simpl in K, E.
    assert (Tm : AssetMatch.type m = k) by (apply Hent, in_or_app; right; now left).
    assert (Hl2 : forall x, In x (Js.values l2) -> ~ mapsToKey key x).
    { intros x Hx. apply in_map_iff in Hx as ([k' x'] & <- & Hx).
      unfold mapsToKey. simpl.
      replace (AssetMatch.type x') with k'.
      - apply (Hno _ Hx).
      - symmetry. apply Hent, in_or_app. right. now right. }
    exists (Js.values l1), m, (Js.values l2).
    unfold Js.values in *. rewrite map_app in *. simpl in *.
    split; [reflexivity|]. split; [unfold mapsToKey; now rewrite Tm|].
    split; [exact E|].
    split; [apply (Hent k), in_or_app; right; now left|].
    split; [exact Hl2|].
    apply descending_app in HS as (_ & _ & H12).
    intros x Hx Kx. apply in_app_or in Hx as [Hx|[<-|Hx]].
    + apply H12; [exact Hx | now left].
    + apply Nat.le_refl.
    + now apply Hl2 in Kx.
  - intros key m I K. apply in_map_iff in I as ([k m'] & <- & I).
    apply (get_fold_putConfig_written _ _ _ _ I). simpl.
    replace k with (AssetMatch.type m'); [exact K | now apply Hent].
Qed.

(** For "leather jacket jeans" the key outfit holds the jeans, the last and
    lowest-scoring of the two retained matches that map to it. *)
Lemma buildAvatarConfig_config_last_write_witness :
  Js.get (AvatarConfig.config (buildAvatarConfig "leather jacket jeans"))
    "outfit" = Some "outfit_blue_jeans"
  /\ exists l1 m l2,
       AvatarConfig.assets (buildAvatarConfig "leather jacket jeans")
       = l1 ++ m :: l2 /\
       mapsToKey "outfit" m /\ AssetMatch.id m = "outfit_blue_jeans" /\
       firstBestOfType m (findAssets "leather jacket jeans") /\
       (forall x, In x l2 -> ~ mapsToKey "outfit" x) /\
       (forall x,
          In x (AvatarConfig.assets
                  (buildAvatarConfig "leather jacket jeans")) ->
          mapsToKey "outfit" x -> AssetMatch.score m <= AssetMatch.score x).
Proof.
  split; [reflexivity|].
  exact (proj1 (proj2 (buildAvatarConfig_config_last_write
                         "leather jacket jeans"))
           "outfit" "outfit_blue_jeans" eq_refl).
Defined.

(** ** Entries that share nothing with the query *)

Section Unrelated.

Lemma leatherJacket_in_table :
  In ("outfit_leather_jacket_black", leatherJacket) SAMPLE_ASSETS.
Proof. now left. Qed.

Lemma SAMPLE_ASSETS_keys_NoDup : NoDup (Js.keys SAMPLE_ASSETS).
Proof.
  unfold Js.keys. simpl.
  repeat (constructor; [simpl; intuition discriminate|]). constructor.
Qed.

Lemma existsb_false {A : Type} (p : A -> bool) (l : list A) :
  (forall x, In x l -> p x = false) -> existsb p l = false.
Proof.
  intros H. induction l as [|x l IH]; simpl; [reflexivity|].
  rewrite (H x (or_introl eq_refl)). apply IH. intros; apply H; now right.
Qed.

Lemma unrelated_tagHit (asset : Asset.t) (description w : string) :
  unrelated asset description ->
  In w (SearchTerms.keywords (extractSearchTerms description)) ->
  w <> "" ->
  tagHit (Js.toLowerCase (Asset.name asset)) (Asset.tags asset) w = false
  /\ typeHit asset (Js.toLowerCase (Asset.name asset)) (Asset.tags asset) w
     = false
  /\ existsb (fun tag => Js.includes tag w) (Asset.tags asset) = false.
Proof.
  intros U I N. destruct (U w I N) as (Hn & Ht & Hty).
  assert (Harr : Js.arr_includes (Asset.tags asset) w = false).
  { destruct (Js.arr_includes (Asset.tags asset) w) eqn:E; [|reflexivity].
    apply arr_includes_In in E. apply Ht in E.
    now rewrite includes_refl in E. }
  unfold tagHit, typeHit. rewrite Hn, Harr. simpl.
  split; [reflexivity|]. split.
  - rewrite orb_false_r. now apply String.eqb_neq.
  - now apply existsb_false.
Qed.

Lemma unrelated_score (asset : Asset.t) (description : string) :
  unrelated asset description ->
  calculateMatchScore asset (extractSearchTerms description)
  = if genderMatch asset (extractSearchTerms description) then 2 else 0.
Proof.
  intros U. unfold calculateMatchScore, keywordPass.
  assert (B : forall voc w,
             Js.arr_includes voc "" = false ->
             In w (filter (Js.arr_includes voc)
                     (SearchTerms.keywords (extractSearchTerms description)))
             -> In w (SearchTerms.keywords (extractSearchTerms description))
                /\ w <> "").
  { intros voc w Hv Hw. apply filter_In in Hw as [Hw Hin].
    split; [exact Hw|]. intros ->. congruence. }
  rewrite (forEachHit_no_hit 10).
  2:{ intros w Hw. apply (B clothingTypes) in Hw as [Hw N]; [|reflexivity].
      apply (unrelated_tagHit _ _ _ U Hw N). }
  rewrite !(forEachHit_no_hit 5).
  2:{ intros w Hw. apply (B colors) in Hw as [Hw N]; [|reflexivity].
      apply (unrelated_tagHit _ _ _ U Hw N). }
  2:{ intros w Hw. apply (B materials) in Hw as [Hw N]; [|reflexivity].
      apply (unrelated_tagHit _ _ _ U Hw N). }
  rewrite (forEachHit_no_hit 3).
  2:{ intros w Hw. apply (B styles) in Hw as [Hw N]; [|reflexivity].
      apply (unrelated_tagHit _ _ _ U Hw N). }
  rewrite (forEachHit_no_hit 1).
  2:{ intros w Hw. unfold keywordHit.
      destruct (Nat.ltb_spec 3 (String.length w)) as [L|L]; [|reflexivity].
      assert (N : w <> "") by (intros ->; simpl in L; lia).
      destruct (unrelated_tagHit _ _ _ U Hw N) as (_ & _ & He).
      destruct (U w Hw N) as (Hn & _). now rewrite Hn, He. }
  unfold genderPass, genderMatch.
  destruct (SearchTerms.gender (extractSearchTerms description)); simpl;
    [reflexivity|].
  now destruct (_ || _).
Qed.

End Unrelated.

Lemma findAssetsIn_complete (assets : Js.obj Asset.t) (description : string)
    (m : AssetMatch.t) :
  List.length assets <= 10 ->
  In m (collectMatches assets (extractSearchTerms description)) ->
  In m (findAssetsIn assets description).
Proof.
  intros L I. unfold findAssetsIn. rewrite firstn_all2.
  - now apply In_sort_desc.
  - rewrite length_sort_desc.
    etransitivity; [apply length_collectMatches | exact L].
Qed.

Lemma In_keys_unique {V : Type} (o : Js.obj V) (k : string) (v v' : V) :
  NoDup (Js.keys o) -> In (k, v) o -> In (k, v') o -> v = v'.
Proof.
  intros ND I I'. apply (In_get _ _ _ ND) in I, I'. congruence.
Qed.

(** C2, counterexample: the only token of the query "male" occurs neither
    in the name nor in a tag of the leather jacket and is not its type, yet
    the jacket scores 2 and is returned. *)
Lemma unrelatedScoresZero_fails :
  ~ unrelatedScoresZero "outfit_leather_jacket_black" leatherJacket "male".
Proof.
  intros H.
  assert (U : unrelated leatherJacket "male").
  { intros w [<-|[]] _. split; [reflexivity|]. split; [|discriminate].
    intros tag Ht. simpl in Ht.
    repeat (destruct Ht as [<-|Ht]; [reflexivity|]). destruct Ht. }
  destruct (H U) as [E _]. vm_compute in E. discriminate E.
Qed.

(** C2, amended: when no non-empty token of the query is a substring of
    the lower-cased name of an entry of the table or a substring of one of
    its tags, and none is the type of the entry, the entry scores exactly 2
    if a gender word of the query matches one of its gender tags and
    exactly 0 otherwise; it is returned by [findAssets] exactly in the
    first case. *)
Theorem unrelated_entry_scores_gender_only (description id : string)
    (asset : Asset.t) :
  In (id, asset) SAMPLE_ASSETS ->
  unrelated asset description ->
  calculateMatchScore asset (extractSearchTerms description)
  = (if genderMatch asset (extractSearchTerms description) then 2 else 0)
  /\ (In id (map AssetMatch.id (findAssets description)) <->
      genderMatch asset (extractSearchTerms description) = true).
Proof.
  intros I U. pose proof (unrelated_score _ _ U) as E.
  split; [exact E|]. split.
  - intros Hid. apply in_map_iff in Hid as (m & <- & Hm).
    apply In_findAssetsIn, In_collectMatches in Hm
      as [P ([id' asset'] & I' & ->)].
    simpl in *.
    rewrite (In_keys_unique _ _ _ _ SAMPLE_ASSETS_keys_NoDup I' I) in P.
    rewrite E in P.
    destruct (genderMatch asset (extractSearchTerms description));
      [reflexivity | lia].
  - intros G. rewrite G in E. apply in_map_iff.
    exists (toMatch (extractSearchTerms description) (id, asset)).
    split; [reflexivity|].
    apply findAssetsIn_complete; [simpl; lia|].
    apply In_collectMatches. split.
    + simpl. rewrite E. lia.
    + now exists (id, asset).
Qed.

(** The leather jacket and the query "male". *)
Lemma unrelated_entry_scores_gender_only_witness :
  calculateMatchScore leatherJacket (extractSearchTerms "male") = 2
  /\ In "outfit_leather_jacket_black"
       (map AssetMatch.id (findAssets "male")).
Proof.
  assert (U : unrelated leatherJacket "male").
  { intros w [<-|[]] _. split; [reflexivity|]. split; [|discriminate].
    intros tag Ht. simpl in Ht.
    repeat (destruct Ht as [<-|Ht]; [reflexivity|]). destruct Ht. }
  destruct (unrelated_entry_scores_gender_only "male"
              "outfit_leather_jacket_black" leatherJacket
              leatherJacket_in_table U) as [E Hin].
  split; [exact E|]. apply Hin. reflexivity.
Defined.

(** Why the condition of C2 speaks of substrings: the token casu is no tag
    of the leather jacket, but it stands inside the tag casual, and the
    keyword pass counts it. *)
Lemma token_inside_a_tag_scores :
  Js.arr_includes (Asset.tags leatherJacket) "casu" = false
  /\ calculateMatchScore leatherJacket (extractSearchTerms "casu") = 1
  /\ calculateMatchScore leatherJacket (extractSearchTerms "male casu") = 3.
Proof. vm_compute. repeat split. Qed.

(** ** The scoring example *)

Section ScoringExample.

(** C3, counterexample: the gender word of the query is "man", which is a
    substring of neither "male" nor "female"; the gender step adds
    nothing. *)
Lemma scoringExampleAsStated_fails : ~ scoringExampleAsStated.
Proof.
  intros (_ & _ & _ & G & _). vm_compute in G. discriminate G.
Qed.

(** C3, amended: for the leather jacket and the query "black leather jacket
    for a man" the scorer counts the type jacket (10), the colour black (5)
    and the material leather (5); the gender step adds nothing, "man" being
    no substring of a gender tag of the entry; that is 20 before the keyword
    pass, which adds 1 for each of black, leather and jacket: 23 in all. *)
Theorem scoring_example :
  let searchTerms := extractSearchTerms exampleQuery in
  let assetName := Js.toLowerCase (Asset.name leatherJacket) in
  let assetTags := Asset.tags leatherJacket in
  In ("outfit_leather_jacket_black", leatherJacket) SAMPLE_ASSETS
  /\ SearchTerms.types searchTerms = ["jacket"]
  /\ SearchTerms.colors searchTerms = ["black"]
  /\ SearchTerms.materials searchTerms = ["leather"]
  /\ SearchTerms.styles searchTerms = []
  /\ SearchTerms.gender searchTerms = ["man"]
  /\ forEachHit 10 (typeHit leatherJacket assetName assetTags)
       (SearchTerms.types searchTerms) 0 = 10
  /\ forEachHit 5 (tagHit assetName assetTags)
       (SearchTerms.colors searchTerms) 0 = 5
  /\ forEachHit 5 (tagHit assetName assetTags)
       (SearchTerms.materials searchTerms) 0 = 5
  /\ genderTokenMatch leatherJacket "man" = false
  /\ genderPass leatherJacket searchTerms 0 = 0
  /\ bucketScore leatherJacket searchTerms = 20
  /\ filter (keywordHit assetName assetTags)
       (SearchTerms.keywords searchTerms)
     = ["black"; "leather"; "jacket"]
  /\ keywordPass assetName assetTags (SearchTerms.keywords searchTerms) 0 = 3
  /\ calculateMatchScore leatherJacket searchTerms = 23.
Proof.
  split; [exact leatherJacket_in_table|].
  vm_compute. repeat split.
Qed.

End ScoringExample.

(** ** The keyword pass *)

(** C9: the keyword list of the extractor is the full list of pieces of the
    lower-cased description, short ones included; the keyword pass adds 1
    for each keyword longer than 3 that occurs in the name or in a tag, so
    that keywords of length 3 or less never add to the score, and the score
    is the bucket score plus that count. *)
Theorem keyword_pass_ignores_short_tokens (description : string) :
  SearchTerms.keywords (extractSearchTerms description)
  = Js.split_ws (Js.toLowerCase description)
  /\ (forall (assetName : string) (assetTags keywords : list string)
        (score : nat),
        keywordPass assetName assetTags keywords score
        = score
          + List.length
              (filter
                 (fun keyword =>
                    (3 <? String.length keyword)
                    && (Js.includes assetName keyword
                        || existsb (fun tag => Js.includes tag keyword)
                             assetTags))
                 keywords)
        /\ keywordPass assetName assetTags keywords score
           = keywordPass assetName assetTags
               (filter (fun keyword => 3 <? String.length keyword) keywords)
               score)
  /\ (forall asset : Asset.t,
        calculateMatchScore asset (extractSearchTerms description)
        = bucketScore asset (extractSearchTerms description)
          + List.length
              (filter
                 (fun keyword =>
                    (3 <? String.length keyword)
                    && (Js.includes (Js.toLowerCase (Asset.name asset))
                          keyword
                        || existsb (fun tag => Js.includes tag keyword)
                             (Asset.tags asset)))
                 (Js.split_ws (Js.toLowerCase description)))).
Proof.
  assert (K : forall assetName assetTags keywords score,
             keywordPass assetName assetTags keywords score
             = score
               + List.length
                   (filter
                      (fun keyword =>
                         (3 <? String.length keyword)
                         && (Js.includes assetName keyword
                             || existsb (fun tag => Js.includes tag keyword)
                                  assetTags))
                      keywords)).
  { intros. unfold keywordPass. rewrite forEachHit_count, Nat.mul_1_l.
    reflexivity. }
  split; [reflexivity|]. split.
  - intros. split; [apply K|].
    rewrite !K. f_equal.
    induction keywords as [|k keywords IH]; simpl; [reflexivity|].
    destruct (3 <? String.length k) eqn:E; simpl; rewrite ?E; simpl.
    + destruct (_ || _); simpl; now rewrite IH.
    + exact IH.
  - intros asset. rewrite calculateMatchScore_passes. apply K.
Qed.

(** ** The gender step *)

(** C10: the gender step tests substrings.  A query with the token "male"
    earns the 2 points on every entry that has the gender tag "female"; the
    tokens "man", "woman", "boy" and "girl" match no entry whose gender tags
    are "male" or "female", and a query whose gender words are all among
    them earns nothing on such an entry. *)
Theorem gender_bonus_is_substring_test :
  (forall (asset : Asset.t) (description : string) (score : nat),
     In "female" (Asset.gender asset) ->
     In "male" (SearchTerms.keywords (extractSearchTerms description)) ->
     genderPass asset (extractSearchTerms description) score = score + 2)
  /\ (forall (asset : Asset.t) (g : string),
        (forall ag, In ag (Asset.gender asset) ->
                    ag = "male" \/ ag = "female") ->
        In g ["man"; "woman"; "boy"; "girl"] ->
        genderTokenMatch asset g = false)
  /\ (forall (asset : Asset.t) (description : string) (score : nat),
        (forall ag, In ag (Asset.gender asset) ->
                    ag = "male" \/ ag = "female") ->
        (forall g, In g (SearchTerms.gender (extractSearchTerms description))
                   -> In g ["man"; "woman"; "boy"; "girl"]) ->
        genderPass asset (extractSearchTerms description) score = score).
Proof.
  assert (T : forall (asset : Asset.t) (g : string),
             (forall ag, In ag (Asset.gender asset) ->
                         ag = "male" \/ ag = "female") ->
             In g ["man"; "woman"; "boy"; "girl"] ->
             genderTokenMatch asset g = false).
  { intros asset g Hag Hg. unfold genderTokenMatch.
    apply existsb_false. intros ag I.
    simpl in Hg.
    destruct (Hag ag I) as [-> | ->];
      repeat (destruct Hg as [<-|Hg]; [reflexivity|]); destruct Hg. }
  split; [|split; [exact T|]].
  - intros asset description score Hf Hm. unfold genderPass, genderMatch.
    assert (I : In "male"
                  (SearchTerms.gender (extractSearchTerms description))).
    { apply filter_In. split; [exact Hm | reflexivity]. }
    assert (E : existsb (genderTokenMatch asset)
                  (SearchTerms.gender (extractSearchTerms description))
                = true).
    { apply existsb_exists. exists "male". split; [exact I|].
      unfold genderTokenMatch. apply existsb_exists.
      exists "female". split; [exact Hf | reflexivity]. }
    rewrite E.
    destruct (SearchTerms.gender (extractSearchTerms description));
      [destruct I | reflexivity].
  - intros asset description score Hag Hg. unfold genderPass, genderMatch.
    rewrite existsb_false; [now destruct (0 <? _)|].
    intros g I. apply T; auto.
Qed.

(** The long brown hair (gender tag "female") earns the points for the
    query "male"; the leather jacket earns none for "man". *)
Lemma gender_bonus_is_substring_test_witness :
  genderPass (Asset.mk "hair_long_brown" "Long Brown Hair" "hair"
                ["female"] ["hair"; "long"; "brown"; "flowing"])
    (extractSearchTerms "male") 0 = 2
  /\ genderTokenMatch leatherJacket "man" = false
  /\ genderPass leatherJacket (extractSearchTerms exampleQuery) 0 = 0.
Proof.
  destruct gender_bonus_is_substring_test as (H1 & H2 & H3).
  assert (G : forall ag, In ag (Asset.gender leatherJacket) ->
                         ag = "male" \/ ag = "female").
  { simpl. intuition. }
  split; [|split].
  - apply (H1 _ "male" 0); simpl; auto.
  - apply (H2 leatherJacket "man" G). simpl. auto.
  - apply (H3 leatherJacket exampleQuery 0 G).
    intros g [<-|[]]. simpl. auto.
Defined.

(** ** Run-time errors *)

Lemma Checked_keepBest (o : Js.obj AssetMatch.t) (a : AssetMatch.t) :
  Checked.keepBest o a = Checked.Normal (keepBest o a).
Proof.
  unfold Checked.keepBest, keepBest.
  destruct (Js.get o (AssetMatch.type a)); simpl; reflexivity.
Qed.

Lemma Checked_fold (l : list AssetMatch.t) (o : Js.obj AssetMatch.t) :
  fold_left
    (fun acc asset => Checked.bind acc (fun o => Checked.keepBest o asset))
    l (Checked.Normal o)
  = Checked.Normal (fold_left keepBest l o).
Proof.
  revert o. induction l as [|a l IH]; intros o; simpl; [reflexivity|].
  now rewrite Checked_keepBest, IH.
Qed.

(** C7: no description makes [buildAvatarConfig] raise an error (and
    [findAssets], which it calls, has no operation that can raise one); for
    the empty description [findAssets] returns no match and
    [buildAvatarConfig] returns the gender neutral, no asset and an empty
    configuration. *)
Theorem never_throws_and_empty_description :
  (forall description : string,
     Checked.buildAvatarConfig description
     = Checked.Normal (buildAvatarConfig description))
  /\ findAssets "" = []
  /\ buildAvatarConfig ""
     = {| AvatarConfig.gender := "neutral";
          AvatarConfig.assets := [];
          AvatarConfig.config := [] |}.
Proof.
  split; [|split; reflexivity].
  intros description.
  unfold Checked.buildAvatarConfig, Checked.groupByType.
  now rewrite Checked_fold.
Qed.

(** ** Gender inference *)

Section GenderInference.

Ltac by_cases_on_char c :=
  destruct c as [[] [] [] [] [] [] [] []]; reflexivity.

Lemma lowerChar_canonicalize (c : ascii) :
  Js.lowerChar (Regex.canonicalize c) = Js.lowerChar c.
Proof. by_cases_on_char c. Qed.

Lemma canonicalize_lowerChar (c : ascii) :
  Regex.canonicalize (Js.lowerChar c) = Regex.canonicalize c.
Proof. by_cases_on_char c. Qed.

Lemma isWordChar_canonicalize (c : ascii) :
  Regex.isWordChar (Regex.canonicalize c) = Regex.isWordChar c.
Proof. by_cases_on_char c. Qed.

Lemma canonicalize_eq_lowerChar (a b : ascii) :
  Regex.canonicalize a = Regex.canonicalize b <->
  Js.lowerChar a = Js.lowerChar b.
Proof.
  split; intros E.
  - now rewrite <- (lowerChar_canonicalize a), E, lowerChar_canonicalize.
  - now rewrite <- (canonicalize_lowerChar a), E, canonicalize_lowerChar.
Qed.

Lemma lowerChar_isWordChar (a b : ascii) :
  Js.lowerChar a = Js.lowerChar b ->
  Regex.isWordChar a = Regex.isWordChar b.
Proof.
  intros E. apply canonicalize_eq_lowerChar in E.
  now rewrite <- (isWordChar_canonicalize a), E, isWordChar_canonicalize.
Qed.

Lemma matchLiteral_sound (pat : string) :
  forall (prev : option ascii) (s : string) (last : option ascii)
         (rest : string),
    Regex.matchLiteral pat prev s = Some (last, rest) ->
    exists mid,
      s = String.append mid rest /\
      Js.toLowerCase mid = Js.toLowerCase pat /\
      last = lastFrom prev mid.
Proof.
  induction pat as [|p pat IH]; intros prev s last rest H; simpl in H.
  - injection H as <- <-. exists EmptyString. auto.
  - destruct s as [|c s]; [discriminate|].
    destruct (Ascii.eqb_spec (Regex.canonicalize p) (Regex.canonicalize c))
      as [E|_]; [|discriminate].
    apply IH in H as (mid & -> & Hm & ->).
    exists (String c mid). simpl. repeat split.
    apply canonicalize_eq_lowerChar in E. now rewrite Hm, E.
Qed.

Lemma matchLiteral_complete (pat : string) :
  forall (prev : option ascii) (mid rest : string),
    Js.toLowerCase mid = Js.toLowerCase pat ->
    Regex.matchLiteral pat prev (String.append mid rest)
    = Some (lastFrom prev mid, rest).
Proof.
  induction pat as [|p pat IH]; intros prev [|c mid] rest H; simpl in *;
    try discriminate; [reflexivity|].
  injection H as Ec Hm.
  apply canonicalize_eq_lowerChar in Ec. rewrite Ec, Ascii.eqb_refl.
  now apply IH.
Qed.

(** A word pattern is matched by word characters only. *)
Lemma wordPattern_match (p mid : string) (prev : option ascii) :
  wordPattern p = true ->
  Js.toLowerCase mid = Js.toLowerCase p ->
  Regex.isWordCharAt (Regex.head mid) = true /\
  Regex.isWordCharAt (lastFrom prev mid) = true /\
  forall post, Regex.head (String.append mid post) = Regex.head mid.
Proof.
  intros W H.
  assert (A : allWordChars p = true /\ p <> "") by (now destruct p).
  destruct A as [A N]. clear W.
  assert (M : allWordChars mid = true /\ mid <> "").
  { clear prev. revert mid H. induction p as [|c p IH];
      intros [|c' mid] H; simpl in *; try discriminate; [congruence|].
    injection H as Ec Hm. apply andb_prop in A as [Ac Ap].
    split; [|discriminate].
    rewrite (lowerChar_isWordChar _ _ Ec), Ac. simpl.
    destruct p as [|c2 p].
    - destruct mid; [reflexivity | discriminate].
    - apply IH; auto. discriminate. }
  destruct M as [M Nm]. clear H A N.
  destruct mid as [|c mid]; [congruence|]. simpl in M.
  apply andb_prop in M as [Mc M]. split; [exact Mc|]. split; [|reflexivity].
  simpl. clear Nm prev. revert c Mc M.
  induction mid as [|c' mid IH]; intros c Mc M; simpl; [exact Mc|].
  simpl in M. apply andb_prop in M as [Mc' M]. now apply IH.
Qed.

Variable alts : list string.
Hypothesis alts_words : forall p, In p alts -> wordPattern p = true.

Lemma matchWordAt_iff (prev : option ascii) (s : string) :
  Regex.matchWordAt alts prev s = true <->
  exists p mid post,
    In p alts /\ s = String.append mid post /\
    Js.toLowerCase mid = Js.toLowerCase p /\
    Regex.isWordCharAt prev = false /\
    Regex.isWordCharAt (Regex.head post) = false.
Proof.
  unfold Regex.matchWordAt, Regex.wordBoundary.
  rewrite andb_true_iff, existsb_exists. split.
  - intros [Hb (p & Ip & Hm)].
    destruct (Regex.matchLiteral p prev s) as [[last rest]|] eqn:E;
      [|discriminate].
    apply matchLiteral_sound in E as (mid & -> & Hl & ->).
    destruct (wordPattern_match p mid prev (alts_words p Ip) Hl)
      as (Hh & Hlast & Hhead).
    rewrite Hhead, Hh in Hb. rewrite Hlast in Hm.
    exists p, mid, rest. repeat split; auto.
    + now destruct (Regex.isWordCharAt prev).
    + now destruct (Regex.isWordCharAt (Regex.head rest)).
  - intros (p & mid & post & Ip & -> & Hl & Hp & Hq).
    destruct (wordPattern_match p mid prev (alts_words p Ip) Hl)
      as (Hh & Hlast & Hhead).
    rewrite Hhead, Hh, Hp. split; [reflexivity|].
    exists p. split; [exact Ip|].
    now rewrite (matchLiteral_complete p prev mid post Hl), Hlast, Hq.
Qed.

Lemma searchFrom_iff (s : string) :
  forall prev : option ascii,
    Regex.searchFrom alts prev s = true <->
    exists p pre mid post,
      In p alts /\ s = String.append pre (String.append mid post) /\
      Js.toLowerCase mid = Js.toLowerCase p /\
      Regex.isWordCharAt (lastFrom prev pre) = false /\
      Regex.isWordCharAt (Regex.head post) = false.
Proof.
  induction s as [|c s IH]; intros prev; simpl; rewrite orb_true_iff,
    matchWordAt_iff.
  - split.
    + intros [(p & mid & post & H)|H]; [|discriminate].
      now exists p, EmptyString, mid, post.
    + intros (p & [|c pre] & mid & post & Ip & E & H); [|discriminate].
      left. now exists p, mid, post.
  - rewrite IH. split.
    + intros [(p & mid & post & H)|(p & pre & mid & post & Ip & -> & H)].
      * now exists p, EmptyString, mid, post.
      * now exists p, (String c pre), mid, post.
    + intros (p & [|c' pre] & mid & post & Ip & E & H).
      * left. now exists p, mid, post.
      * simpl in E. injection E as <- ->. right.
        now exists p, pre, mid, post.
Qed.

Lemma matchesWord_iff (d : string) :
  Regex.matchesWord alts d = true <-> someWholeWord alts d.
Proof.
  unfold Regex.matchesWord, someWholeWord, WholeWord.
  rewrite searchFrom_iff. split.
  - intros (p & pre & mid & post & Ip & H). exists p. split; [exact Ip|].
    now exists pre, mid, post.
  - intros (p & Ip & pre & mid & post & H). now exists p, pre, mid, post.
Qed.

End GenderInference.

Lemma malePatterns_words (p : string) :
  In p malePatterns -> wordPattern p = true.
Proof.
  simpl. intros H.
  repeat (destruct H as [<-|H]; [reflexivity|]). destruct H.
Qed.

Lemma femalePatterns_words (p : string) :
  In p femalePatterns -> wordPattern p = true.
Proof.
  simpl. intros H.
  repeat (destruct H as [<-|H]; [reflexivity|]). destruct H.
Qed.

Lemma inferGender_cases (description : string) :
  (inferGender description = "male" /\
   someWholeWord malePatterns description)
  \/ (inferGender description = "female" /\
      ~ someWholeWord malePatterns description /\
      someWholeWord femalePatterns description)
  \/ (inferGender description = "neutral" /\
      ~ someWholeWord malePatterns description /\
      ~ someWholeWord femalePatterns description).
Proof.
  pose proof (matchesWord_iff malePatterns malePatterns_words description)
    as Hm.
  pose proof (matchesWord_iff femalePatterns femalePatterns_words
                description) as Hf.
  unfold inferGender.
  destruct (Regex.matchesWord malePatterns description).
  - left. split; [reflexivity | now apply Hm].
  - right.
    assert (NM : ~ someWholeWord malePatterns description).
    { intros H. apply Hm in H. discriminate H. }
    destruct (Regex.matchesWord femalePatterns description).
    + left. split; [reflexivity|]. split; [exact NM | now apply Hf].
    + right. split; [reflexivity|]. split; [exact NM|].
      intros H. apply Hf in H. discriminate H.
Qed.

(** C6: [buildAvatarConfig] answers male exactly when one of man, male,
    boy, gentleman occurs in the description as a whole word, letter case
    apart; female exactly when none of them does and one of woman, female,
    girl, lady does; neutral exactly when none of the eight does.  So male
    wins when words of both lists occur.  The three descriptions of the
    specification give male, female and neutral. *)
Theorem gender_inference (description : string) :
  (AvatarConfig.gender (buildAvatarConfig description) = "male" <->
   someWholeWord [ "man"; "male"; "boy"; "gentleman" ] description)
  /\ (AvatarConfig.gender (buildAvatarConfig description) = "female" <->
      ~ someWholeWord [ "man"; "male"; "boy"; "gentleman" ] description /\
      someWholeWord [ "woman"; "female"; "girl"; "lady" ] description)
  /\ (AvatarConfig.gender (buildAvatarConfig description) = "neutral" <->
      ~ someWholeWord [ "man"; "male"; "boy"; "gentleman" ] description /\
      ~ someWholeWord [ "woman"; "female"; "girl"; "lady" ] description)
  /\ AvatarConfig.gender (buildAvatarConfig "Indian man with black jacket")
     = "male"
  /\ AvatarConfig.gender (buildAvatarConfig "elegant woman in red dress")
     = "female"
  /\ AvatarConfig.gender (buildAvatarConfig "a person walking") = "neutral"
  /\ AvatarConfig.gender (buildAvatarConfig "A GIRL and a Boy") = "male".
Proof.
  change (AvatarConfig.gender (buildAvatarConfig description))
    with (inferGender description).
  change [ "man"; "male"; "boy"; "gentleman" ] with malePatterns.
  change [ "woman"; "female"; "girl"; "lady" ] with femalePatterns.
  split; [|split; [|split]].
  - destruct (inferGender_cases description)
      as [[-> M]|[[-> [NM F]]|[-> [NM NF]]]];
      split; intros H; try discriminate H; tauto.
  - destruct (inferGender_cases description)
      as [[-> M]|[[-> [NM F]]|[-> [NM NF]]]];
      split; intros H; try discriminate H; tauto.
  - destruct (inferGender_cases description)
      as [[-> M]|[[-> [NM F]]|[-> [NM NF]]]];
      split; intros H; try discriminate H; tauto.
  - repeat split; vm_compute; reflexivity.
Qed.

(** The word "man" stands between a space and a space in the first
    description of the specification. *)
Lemma gender_inference_witness :
  someWholeWord [ "man"; "male"; "boy"; "gentleman" ]
    "Indian man with black jacket"
  /\ AvatarConfig.gender (buildAvatarConfig "Indian man with black jacket")
     = "male".
Proof.
  assert (W : someWholeWord [ "man"; "male"; "boy"; "gentleman" ]
                "Indian man with black jacket").
  { exists "man". split; [now left|].
    exists "Indian ", "man", " with black jacket". repeat split. }
  split; [exact W|].
  exact (proj2 (proj1 (gender_inference "Indian man with black jacket")) W).
Defined.

(** * Further properties *)

(** ** Looking up what [findAssets] returns *)

Section Lookup.

Lemma readMember_own {V : Type} (o : Js.obj V) (k : string) (v : V) :
  NoDup (Js.keys o) -> In (k, v) o -> JsObject.readMember o k = JsObject.Own v.
Proof.
  intros ND I. unfold JsObject.readMember. now rewrite (In_get _ _ _ ND I).
Qed.

(** Every entry of the table carries its key in its field [id]. *)
Lemma SAMPLE_ASSETS_ids (id : string) (asset : Asset.t) :
  In (id, asset) SAMPLE_ASSETS -> Asset.id asset = id.
Proof.
  simpl. intros H.
  repeat (destruct H as [[= <- <-]|H]; [reflexivity|]). destruct H.
Qed.

End Lookup.

(** X1: every match [findAssets] returns can be looked up again: under its
    id [getAssetById] finds a table entry with that id, and the match
    carries the name, the type and the gender tags of that entry and the
    score the scorer gives it. *)
Theorem findAssets_getAssetById (description : string) :
  Forall
    (fun m =>
       exists asset,
         getAssetById (AssetMatch.id m) = JsObject.Own asset /\
         Asset.id asset = AssetMatch.id m /\
         Asset.name asset = AssetMatch.name m /\
         Asset.type asset = AssetMatch.type m /\
         Asset.gender asset = AssetMatch.gender m /\
         calculateMatchScore asset (extractSearchTerms description)
         = AssetMatch.score m)
    (findAssets description).
Proof.
  apply Forall_forall. intros m Hm.
  apply In_findAssetsIn, In_collectMatches in Hm as [_ ([id asset] & I & ->)].
  exists asset. simpl.
  split; [apply (readMember_own _ _ _ SAMPLE_ASSETS_keys_NoDup I)|].
  split; [apply (SAMPLE_ASSETS_ids _ _ I)|]. repeat split.
Qed.

(** X2: every id in the configuration object can be looked up: it is the
    id of a table entry that scores above 0 for the description and whose
    type the table [typeMap] sends to the key the id stands under. *)
Theorem config_ids_resolve (description key id : string) :
  Js.get (AvatarConfig.config (buildAvatarConfig description)) key = Some id ->
  exists asset,
    getAssetById id = JsObject.Own asset /\
    Asset.id asset = id /\
    mapTypeToConfigKey (Asset.type asset) = Some key /\
    0 < calculateMatchScore asset (extractSearchTerms description).
Proof.
  unfold buildAvatarConfig, buildAvatarConfigIn, buildConfig. simpl.
  fold (findAssets description). intros G.
  destruct (groupByType_inv (findAssets description)) as (_ & Hent & _).
  apply get_fold_putConfig in G
    as [[G _]|(l1 & [k m] & l2 & E & K & <- & _)]; [discriminate|].
  simpl in K.
  assert (I : In (k, m) (groupByType (findAssets description))).
  { rewrite E. apply in_or_app. right. now left. }
  destruct (Hent k m I) as [Tm (a1 & a2 & Ef & _)].
  assert (Hm : In m (findAssets description)).
  { rewrite Ef. apply in_or_app. right. now left. }
  apply In_findAssetsIn, In_collectMatches in Hm
    as [P ([id asset] & Ie & ->)].
  simpl in *. exists asset.
  split; [apply (readMember_own _ _ _ SAMPLE_ASSETS_keys_NoDup Ie)|].
  split; [apply (SAMPLE_ASSETS_ids _ _ Ie)|].
  split; [now rewrite Tm | exact P].
Qed.

(** For "leather jacket jeans" the key outfit holds the id of the jeans. *)
Lemma config_ids_resolve_witness :
  exists asset,
    getAssetById "outfit_blue_jeans" = JsObject.Own asset /\
    Asset.id asset = "outfit_blue_jeans" /\
    mapTypeToConfigKey (Asset.type asset) = Some "outfit" /\
    0 < calculateMatchScore asset (extractSearchTerms "leather jacket jeans").
Proof.
  exact (config_ids_resolve "leather jacket jeans" "outfit"
           "outfit_blue_jeans" eq_refl).
Defined.

(** ** What [findAssets] returns, as a set *)

Section FindAssetsSet.

Lemma insert_desc_Permutation {A : Type} (key : A -> nat) (x : A)
    (l : list A) :
  Permutation (Js.insert_desc key x l) (x :: l).
Proof.
  induction l as [|y l IH]; simpl; [reflexivity|].
  destruct (key y <=? key x); [reflexivity|].
  rewrite IH. apply perm_swap.
Qed.

Lemma sort_desc_Permutation {A : Type} (key : A -> nat) (l : list A) :
  Permutation (Js.sort_desc key l) l.
Proof.
  induction l as [|x l IH]; simpl; [reflexivity|].
  rewrite insert_desc_Permutation. now constructor.
Qed.

Lemma NoDup_firstn {A : Type} (n : nat) (l : list A) :
  NoDup l -> NoDup (firstn n l).
Proof.
  intros H. rewrite <- (firstn_skipn n l) in H.
  now apply NoDup_app_remove_r in H.
Qed.

Lemma map_id_toMatch (searchTerms : SearchTerms.t)
    (entries : Js.obj Asset.t) :
  map AssetMatch.id (map (toMatch searchTerms) entries) = Js.keys entries.
Proof.
  unfold Js.keys. rewrite map_map. reflexivity.
Qed.

(** Dropping items keeps their images pairwise different. *)
Lemma distinct_images_filter {Item Image : Type} (image : Item -> Image)
    (keep : Item -> bool) (items : list Item)
    (ND : NoDup (map image items)) :
  NoDup (map image (filter keep items)).
Proof.
  induction items as [|item items IH]; simpl in *; [exact ND|].
  inversion ND as [|? ? Fresh Rest]; subst.
  destruct (keep item); simpl; [|now apply IH].
  constructor; [|now apply IH].
  intros Hin. apply Fresh. apply in_map_iff in Hin as (other & <- & Hother).
  apply in_map. apply filter_In in Hother. tauto.
Qed.

Lemma findAssetsIn_ids_NoDup (assets : Js.obj Asset.t)
    (description : string) :
  NoDup (Js.keys assets) ->
  NoDup (map AssetMatch.id (findAssetsIn assets description)).
Proof.
  intros ND. unfold findAssetsIn. rewrite <- firstn_map.
  apply NoDup_firstn.
  eapply Permutation_NoDup;
    [apply Permutation_map, Permutation_sym, sort_desc_Permutation|].
  rewrite collectMatches_filter. apply distinct_images_filter.
  now rewrite map_id_toMatch.
Qed.

End FindAssetsSet.

(** X3: [findAssets] never returns the same asset twice: the ids of the
    matches it returns are pairwise different. *)
Theorem findAssets_ids_distinct (description : string) :
  NoDup (map AssetMatch.id (findAssets description)).
Proof.
  apply findAssetsIn_ids_NoDup, SAMPLE_ASSETS_keys_NoDup.
Qed.

(** X4: with the ten entries of the table nothing is ever cut off by the
    limit of 10: [findAssets] returns an asset exactly when the scorer gives
    it a score above 0, and it returns as many matches as there are such
    entries. *)
Theorem findAssets_exactly_the_positive (description : string) :
  (forall id : string,
     In id (map AssetMatch.id (findAssets description)) <->
     exists asset,
       In (id, asset) SAMPLE_ASSETS /\
       0 < calculateMatchScore asset (extractSearchTerms description))
  /\ List.length (findAssets description)
     = List.length
         (filter
            (fun entry =>
               0 <? calculateMatchScore (snd entry)
                      (extractSearchTerms description))
            SAMPLE_ASSETS).
Proof.
  split.
  - intros id. split.
    + intros H. apply in_map_iff in H as (m & <- & Hm).
      apply In_findAssetsIn, In_collectMatches in Hm
        as [P ([id asset] & I & ->)].
      now exists asset.
    + intros (asset & I & P). apply in_map_iff.
      exists (toMatch (extractSearchTerms description) (id, asset)).
      split; [reflexivity|].
      apply findAssetsIn_complete; [simpl; lia|].
      apply In_collectMatches. split; [exact P | now exists (id, asset)].
  - unfold findAssets, findAssetsIn. rewrite firstn_all2.
    + rewrite length_sort_desc, collectMatches_filter.
      generalize SAMPLE_ASSETS as entries.
      induction entries as [|e entries IH]; simpl; [reflexivity|].
      unfold positive at 1. simpl.
      destruct (0 <? calculateMatchScore (snd e) _); simpl; now rewrite IH.
    + rewrite length_sort_desc.
      etransitivity; [apply length_collectMatches | simpl; lia].
Qed.

(** ** Letter case *)

Section LetterCase.

Lemma lowerChar_idempotent (c : ascii) :
  Js.lowerChar (Js.lowerChar c) = Js.lowerChar c.
Proof. destruct c as [[] [] [] [] [] [] [] []]; reflexivity. Qed.

Lemma toLowerCase_idempotent (s : string) :
  Js.toLowerCase (Js.toLowerCase s) = Js.toLowerCase s.
Proof.
  induction s as [|c s IH]; simpl; [reflexivity|].
  now rewrite lowerChar_idempotent, IH.
Qed.

Lemma existsb_eq {A : Type} (p q : A -> bool) (l : list A) :
  (forall x, p x = q x) -> existsb p l = existsb q l.
Proof.
  intros H. induction l as [|x l IH]; simpl; [reflexivity|].
  now rewrite H, IH.
Qed.

Lemma lowerChar_asciiLowerChar (c : ascii) :
  Js.lowerChar (asciiLowerChar c) = Js.lowerChar c.
Proof. destruct c as [[] [] [] [] [] [] [] []]; reflexivity. Qed.

Lemma canonicalize_asciiLowerChar (c : ascii) :
  Regex.canonicalize (asciiLowerChar c) = Regex.canonicalize c.
Proof. destruct c as [[] [] [] [] [] [] [] []]; reflexivity. Qed.

Lemma isWordChar_asciiLowerChar (c : ascii) :
  Regex.isWordChar (asciiLowerChar c) = Regex.isWordChar c.
Proof. destruct c as [[] [] [] [] [] [] [] []]; reflexivity. Qed.

Lemma asciiLower_toLowerCase (s : string) :
  forall s' : string,
    asciiLower s = asciiLower s' -> Js.toLowerCase s = Js.toLowerCase s'.
Proof.
  induction s as [|c s IH]; intros [|c' s'] E; simpl in E;
    try discriminate; [reflexivity|].
  injection E as Ec Es. simpl.
  rewrite <- (lowerChar_asciiLowerChar c), Ec, lowerChar_asciiLowerChar.
  now rewrite (IH s' Es).
Qed.

Lemma asciiLowerChar_canonicalize (c c' : ascii) :
  asciiLowerChar c = asciiLowerChar c' ->
  Regex.canonicalize c = Regex.canonicalize c'.
Proof.
  intros E.
  now rewrite <- (canonicalize_asciiLowerChar c), E,
    canonicalize_asciiLowerChar.
Qed.

Lemma sameAsciiCase_isWordCharAt (a b : option ascii) :
  sameAsciiCase a b -> Regex.isWordCharAt a = Regex.isWordCharAt b.
Proof.
  destruct a as [a|], b as [b|]; simpl; try discriminate; [|reflexivity].
  intros [= E].
  now rewrite <- (isWordChar_asciiLowerChar a), E, isWordChar_asciiLowerChar.
Qed.

Lemma sameAsciiCase_head (s s' : string) :
  asciiLower s = asciiLower s' ->
  sameAsciiCase (Regex.head s) (Regex.head s').
Proof.
  destruct s, s'; simpl; try discriminate; [reflexivity|].
  intros [= E _]. unfold sameAsciiCase. simpl. now rewrite E.
Qed.

Lemma wordBoundary_sameAsciiCase (a a' b b' : option ascii) :
  sameAsciiCase a a' -> sameAsciiCase b b' ->
  Regex.wordBoundary a b = Regex.wordBoundary a' b'.
Proof.
  intros Ha Hb. unfold Regex.wordBoundary.
  now rewrite (sameAsciiCase_isWordCharAt _ _ Ha),
    (sameAsciiCase_isWordCharAt _ _ Hb).
Qed.

(** The test that follows the first [\b], for one alternative. *)
Lemma matchLiteral_sameAsciiCase (alt : string) :
  forall (prev prev' : option ascii) (s s' : string),
    sameAsciiCase prev prev' ->
    asciiLower s = asciiLower s' ->
    match Regex.matchLiteral alt prev s with
    | Some (last, rest) => Regex.wordBoundary last (Regex.head rest)
    | None => false
    end
    = match Regex.matchLiteral alt prev' s' with
      | Some (last, rest) => Regex.wordBoundary last (Regex.head rest)
      | None => false
      end.
Proof.
  induction alt as [|p alt IH]; intros prev prev' s s' Hp Hs; simpl.
  - apply wordBoundary_sameAsciiCase;
      [exact Hp | now apply sameAsciiCase_head].
  - destruct s as [|c s], s' as [|c' s']; simpl in Hs; try discriminate;
      [reflexivity|].
    injection Hs as Ec Hs.
    rewrite (asciiLowerChar_canonicalize _ _ Ec).
    destruct (Ascii.eqb _ _); [|reflexivity].
    apply IH; [|exact Hs]. unfold sameAsciiCase. simpl. now rewrite Ec.
Qed.

Lemma searchFrom_sameAsciiCase (alts : list string) (s : string) :
  forall (s' : string) (prev prev' : option ascii),
    sameAsciiCase prev prev' ->
    asciiLower s = asciiLower s' ->
    Regex.searchFrom alts prev s = Regex.searchFrom alts prev' s'.
Proof.
  induction s as [|c s IH]; intros [|c' s'] prev prev' Hp Hs; simpl in Hs;
    try discriminate.
  - simpl. f_equal. unfold Regex.matchWordAt. f_equal.
    + now apply wordBoundary_sameAsciiCase.
    + apply existsb_eq. intros alt.
      now apply matchLiteral_sameAsciiCase.
  - injection Hs as Ec Hs.
    change (Regex.matchWordAt alts prev (String c s)
            || Regex.searchFrom alts (Some c) s
            = Regex.matchWordAt alts prev' (String c' s')
              || Regex.searchFrom alts (Some c') s').
    f_equal.
    + unfold Regex.matchWordAt. f_equal.
      * apply wordBoundary_sameAsciiCase; [exact Hp|].
        unfold sameAsciiCase. simpl. now rewrite Ec.
      * apply existsb_eq. intros alt.
        apply matchLiteral_sameAsciiCase; [exact Hp|].
        simpl. now rewrite Ec, Hs.
    + apply IH; [|exact Hs]. unfold sameAsciiCase. simpl. now rewrite Ec.
Qed.

End LetterCase.

(** X5: the mapper ignores the case of the letters A-Z: two descriptions
    that differ only in the case of such letters get the same matches and
    the same avatar configuration (gender, retained assets and
    configuration object).  The matches depend on the lower-cased text
    only; the gender test compares the letters of its patterns without
    regard to case, and a letter is a word character in either case. *)
Theorem mapper_ignores_ascii_letter_case (d d' : string) :
  asciiLower d = asciiLower d' ->
  findAssets d = findAssets d' /\ buildAvatarConfig d = buildAvatarConfig d'.
Proof.
  intros E. pose proof (asciiLower_toLowerCase _ _ E) as L.
  assert (T : extractSearchTerms d = extractSearchTerms d').
  { unfold extractSearchTerms. now rewrite L. }
  assert (F : findAssets d = findAssets d').
  { unfold findAssets, findAssetsIn. now rewrite T. }
  split; [exact F|].
  unfold buildAvatarConfig, buildAvatarConfigIn.
  fold (findAssets d). fold (findAssets d'). rewrite F.
  f_equal. unfold inferGender, Regex.matchesWord.
  now rewrite !(searchFrom_sameAsciiCase _ d d' None None eq_refl E).
Qed.

(** "Black JACKET for a Man" and "black jacket for a man". *)
Lemma mapper_ignores_ascii_letter_case_witness :
  findAssets "Black JACKET for a Man" = findAssets "black jacket for a man"
  /\ buildAvatarConfig "Black JACKET for a Man"
     = buildAvatarConfig "black jacket for a man".
Proof.
  exact (mapper_ignores_ascii_letter_case "Black JACKET for a Man"
           "black jacket for a man" eq_refl).
Defined.

(** ** The buckets of the extractor and the size of a score *)

Section Buckets.

Lemma bucketsOf_le_1 (w : string) : bucketsOf w <= 1.
Proof.
  destruct (in_dec string_dec w
              (colors ++ materials ++ clothingTypes ++ styles ++ genderTerms))
    as [I|N].
  - simpl in I.
    repeat (destruct I as [<-|I]; [vm_compute; lia|]). destruct I.
  - assert (F : forall voc,
               (forall x, In x voc ->
                          In x (colors ++ materials ++ clothingTypes
                                ++ styles ++ genderTerms)) ->
               Js.arr_includes voc w = false).
    { intros voc Hv. destruct (Js.arr_includes voc w) eqn:E; [|reflexivity].
      apply arr_includes_In in E. now apply Hv in E. }
    unfold bucketsOf.
    rewrite !F; [simpl; lia | | | | |]; intros x Hx;
      repeat (apply in_or_app; (now left) || right); exact Hx.
Qed.

Lemma filter_length_if {A : Type} (p : A -> bool) (x : A) (l : list A) :
  List.length (filter p (x :: l))
  = (if p x then 1 else 0) + List.length (filter p l).
Proof. simpl. now destruct (p x). Qed.

Lemma buckets_length (words : list string) :
  List.length (filter (Js.arr_includes colors) words)
  + List.length (filter (Js.arr_includes materials) words)
  + List.length (filter (Js.arr_includes clothingTypes) words)
  + List.length (filter (Js.arr_includes styles) words)
  + List.length (filter (Js.arr_includes genderTerms) words)
  <= List.length words.
Proof.
  induction words as [|w words IH]; [simpl; lia|].
  rewrite !filter_length_if. pose proof (bucketsOf_le_1 w) as B.
  unfold bucketsOf in B. simpl List.length. lia.
Qed.

Lemma genderPass_le (asset : Asset.t) (searchTerms : SearchTerms.t)
    (score : nat) :
  genderPass asset searchTerms score <= score + 2.
Proof.
  unfold genderPass.
  destruct (0 <? _); [destruct (genderMatch _ _)|]; lia.
Qed.

End Buckets.

(** X6: the five vocabularies of the extractor share no word, so a token of
    the description goes to at most one of the buckets colors, materials,
    types, styles and gender: together the buckets hold no more tokens than
    the keyword list. *)
Theorem buckets_are_disjoint (description : string) :
  List.length (SearchTerms.colors (extractSearchTerms description))
  + List.length (SearchTerms.materials (extractSearchTerms description))
  + List.length (SearchTerms.types (extractSearchTerms description))
  + List.length (SearchTerms.styles (extractSearchTerms description))
  + List.length (SearchTerms.gender (extractSearchTerms description))
  <= List.length (SearchTerms.keywords (extractSearchTerms description))
  /\ forall w : string, bucketsOf w <= 1.
Proof.
  split; [apply buckets_length | apply bucketsOf_le_1].
Qed.

(** X7: a score is bounded by the length of the query: no entry scores more
    than 11 per token of the description (10 as a type and 1 as a keyword)
    plus 2 for the gender. *)
Theorem score_upper_bound (asset : Asset.t) (description : string) :
  calculateMatchScore asset (extractSearchTerms description)
  <= 11 * List.length (SearchTerms.keywords (extractSearchTerms description))
     + 2.
Proof.
  pose proof (buckets_length (Js.split_ws (Js.toLowerCase description))) as B.
  unfold calculateMatchScore, keywordPass.
  rewrite forEachHit_count.
  eapply Nat.le_trans;
    [apply Nat.add_le_mono; [apply genderPass_le | apply Nat.le_refl]|].
  rewrite !forEachHit_count. simpl SearchTerms.types.
  simpl SearchTerms.colors. simpl SearchTerms.materials.
  simpl SearchTerms.styles. simpl SearchTerms.keywords.
  repeat match goal with
         | |- context [List.length (filter ?p ?l)] =>
             lazymatch goal with
             | H : List.length (filter p l) <= List.length l |- _ => fail
             | _ => pose proof (filter_length_le p l)
             end
         end.
  lia.
Qed.

(** ** The shape of the search terms *)

Section KeywordShape.

Lemma split_ws_not_nil (s : string) : Js.split_ws s <> [].
Proof.
  induction s as [|a s IH]; simpl; [discriminate|].
  destruct (Js.isWhiteSpace a).
  - destruct (Js.startsWithWhiteSpace s); [exact IH | discriminate].
  - destruct (Js.split_ws s); discriminate.
Qed.

Lemma split_ws_codeUnits (s w : string) (c : ascii) :
  In w (Js.split_ws s) -> In c (codeUnits w) ->
  In c (codeUnits s) /\ Js.isWhiteSpace c = false.
Proof.
  revert w. induction s as [|a s IH]; intros w Hw Hc; simpl in Hw.
  - destruct Hw as [<-|[]]. destruct Hc.
  - destruct (Js.isWhiteSpace a) eqn:Wa.
    + assert (Hw' : w = EmptyString \/ In w (Js.split_ws s)).
      { destruct (Js.startsWithWhiteSpace s); [now right|].
        destruct Hw as [<-|Hw]; [now left | now right]. }
      destruct Hw' as [->|Hw']; [destruct Hc|].
      destruct (IH w Hw' Hc) as [I N]. split; [now right | exact N].
    + destruct (Js.split_ws s) as [|piece pieces] eqn:E.
      * destruct Hw as [<-|[]]. destruct Hc as [<-|[]].
        split; [now left | exact Wa].
      * destruct Hw as [<-|Hw].
        -- destruct Hc as [<-|Hc]; [split; [now left | exact Wa]|].
           destruct (IH piece (or_introl eq_refl) Hc) as [I N].
           split; [now right | exact N].
        -- destruct (IH w (or_intror Hw) Hc) as [I N].
           split; [now right | exact N].
Qed.

Lemma codeUnits_toLowerCase (s : string) (c : ascii) :
  In c (codeUnits (Js.toLowerCase s)) -> Js.lowerChar c = c.
Proof.
  induction s as [|a s IH]; simpl; [tauto|].
  intros [<-|I]; [apply lowerChar_idempotent | auto].
Qed.

Lemma toLowerCase_fixed (w : string) :
  (forall c, In c (codeUnits w) -> Js.lowerChar c = c) ->
  Js.toLowerCase w = w.
Proof.
  induction w as [|a w IH]; simpl; intros H; [reflexivity|].
  rewrite (H a (or_introl eq_refl)), IH; [reflexivity|].
  intros c Hc. apply H. now right.
Qed.

End KeywordShape.

(** X8: the keyword list of the extractor is never empty, and every keyword
    (hence every token of every bucket) is in lower case and contains no
    white space. *)
Theorem keywords_shape (description : string) :
  SearchTerms.keywords (extractSearchTerms description) <> []
  /\ Forall
       (fun w =>
          Js.toLowerCase w = w /\
          Forall (fun c => Js.isWhiteSpace c = false) (codeUnits w))
       (SearchTerms.keywords (extractSearchTerms description)).
Proof.
  split; [apply split_ws_not_nil|].
  apply Forall_forall. intros w Hw. simpl in Hw. split.
  - apply toLowerCase_fixed. intros c Hc.
    destruct (split_ws_codeUnits _ _ _ Hw Hc) as [I _].
    now apply codeUnits_toLowerCase in I.
  - apply Forall_forall. intros c Hc.
    now destruct (split_ws_codeUnits _ _ _ Hw Hc).
Qed.

(** ** The retained matches *)

Section Retained.

Lemma arr_includes_false (arr : list string) (x : string) :
  ~ In x arr -> Js.arr_includes arr x = false.
Proof.
  intros N. destruct (Js.arr_includes arr x) eqn:E; [|reflexivity].
  now apply arr_includes_In in E.
Qed.

(** On a sorted list the loop never replaces an entry: it keeps the first
    match of each type. *)
Lemma fold_keepBest_first (l : list AssetMatch.t) :
  forall o : Js.obj AssetMatch.t,
    descending AssetMatch.score (Js.values o ++ l) ->
    (forall k m, In (k, m) o -> AssetMatch.type m = k) ->
    Js.values (fold_left keepBest l o)
    = Js.values o ++ firstOfEachType (Js.keys o) l.
Proof.
  induction l as [|a l IH]; intros o HS Hent; simpl.
  - now rewrite app_nil_r.
  - unfold keepBest at 2.
    destruct (Js.get o (AssetMatch.type a)) as [best|] eqn:G.
    + apply get_Some_In in G as I.
      assert (K : In (AssetMatch.type a) (Js.keys o))
        by (apply (in_map fst) in I; exact I).
      apply arr_includes_In in K. rewrite K.
      apply descending_app in HS as (H1 & H2 & H12).
      assert (Hle : AssetMatch.score a <= AssetMatch.score best).
      { apply H12; [|now left]. apply (in_map snd) in I. exact I. }
      destruct (Nat.ltb_spec (AssetMatch.score best) (AssetMatch.score a));
        [lia|].
      apply IH; [|exact Hent].
      apply descending_app. split; [exact H1|]. split.
      * now inversion H2.
      * intros x y Hx Hy. apply H12; [exact Hx | now right].
    + rewrite (arr_includes_false _ _ (proj1 (get_None_keys _ _) G)).
      rewrite (set_absent _ _ _ G), IH.
      * unfold Js.values, Js.keys. rewrite !map_app. simpl.
        now rewrite <- app_assoc.
      * unfold Js.values. rewrite map_app. simpl. now rewrite <- app_assoc.
      * intros k m I. apply in_app_or in I as [I|[[= <- <-]|[]]]; auto.
Qed.

Lemma table_types_have_keys (id : string) (asset : Asset.t) :
  In (id, asset) SAMPLE_ASSETS ->
  exists key, mapTypeToConfigKey (Asset.type asset) = Some key.
Proof.
  simpl. intros H.
  repeat (destruct H as [[= <- <-]|H]; [eexists; reflexivity|]). destruct H.
Qed.

Lemma findAssets_types_have_keys (description : string) (m : AssetMatch.t) :
  In m (findAssets description) -> exists key, mapsToKey key m.
Proof.
  intros Hm.
  apply In_findAssetsIn, In_collectMatches in Hm as [_ ([id asset] & I & ->)].
  apply (table_types_have_keys _ _ I).
Qed.

End Retained.

(** X9: as [findAssets] returns its matches sorted, the grouping loop of
    [buildAvatarConfig] never replaces a retained match: the field [assets]
    is the list of the first match of each type, in the order of
    [findAssets]; it is sorted by non-increasing score and starts with the
    best match overall. *)
Theorem retained_are_first_of_each_type (description : string) :
  AvatarConfig.assets (buildAvatarConfig description)
  = firstOfEachType [] (findAssets description)
  /\ descending AssetMatch.score
       (AvatarConfig.assets (buildAvatarConfig description))
  /\ hd_error (AvatarConfig.assets (buildAvatarConfig description))
     = hd_error (findAssets description).
Proof.
  assert (E : AvatarConfig.assets (buildAvatarConfig description)
              = firstOfEachType [] (findAssets description)).
  { unfold buildAvatarConfig, buildAvatarConfigIn. simpl.
    fold (findAssets description).
    apply (fold_keepBest_first (findAssets description) []).
    - apply findAssetsIn_descending.
    - intros k m []. }
  split; [exact E|]. split.
  - apply groupByType_descending, findAssetsIn_descending.
  - rewrite E. now destruct (findAssets description).
Qed.

(** X10: every type of the table has a configuration key, so every retained
    match is represented in the configuration object, and the object is
    empty exactly when [findAssets] finds nothing, as is the field
    [assets]. *)
Theorem config_covers_retained (description : string) :
  Forall
    (fun m =>
       exists key,
         mapsToKey key m /\
         Js.get (AvatarConfig.config (buildAvatarConfig description)) key
         <> None)
    (AvatarConfig.assets (buildAvatarConfig description))
  /\ (AvatarConfig.config (buildAvatarConfig description) = [] <->
      findAssets description = [])
  /\ (AvatarConfig.assets (buildAvatarConfig description) = [] <->
      findAssets description = []).
Proof.
  unfold buildAvatarConfig, buildAvatarConfigIn, buildConfig. simpl.
  fold (findAssets description).
  destruct (groupByType_inv (findAssets description)) as (_ & Hent & Hcov).
  assert (C : forall k m,
             In (k, m) (groupByType (findAssets description)) ->
             exists key,
               mapsToKey key m /\
               Js.get (fold_left putConfig
                         (groupByType (findAssets description)) []) key
               <> None).
  { intros k m I. destruct (Hent k m I) as [Tm (l1 & l2 & Ef & _)].
    assert (Hm : In m (findAssets description)).
    { rewrite Ef. apply in_or_app. right. now left. }
    destruct (findAssets_types_have_keys _ _ Hm) as [key K].
    exists key. split; [exact K|].
    apply (get_fold_putConfig_written _ _ _ _ I). simpl.
    now rewrite <- Tm. }
  split; [|split].
  - apply Forall_forall. intros m Hm.
    apply in_map_iff in Hm as ([k m'] & <- & I). apply (C k m' I).
  - split.
    + intros E. destruct (findAssets description) as [|a l] eqn:F;
        [reflexivity|]. exfalso.
      assert (Ka : In (AssetMatch.type a)
                     (Js.keys (groupByType (a :: l))))
        by (apply Hcov; now left).
      apply in_map_iff in Ka as ([k m] & _ & I).
      destruct (C k m I) as (key & _ & G). apply G. now rewrite E.
    + intros ->. reflexivity.
  - split.
    + intros E. destruct (findAssets description) as [|a l] eqn:F;
        [reflexivity|]. exfalso.
      assert (Ka : In (AssetMatch.type a)
                     (Js.keys (groupByType (a :: l))))
        by (apply Hcov; now left).
      apply in_map_iff in Ka as ([k m] & _ & I).
      apply (in_map snd) in I. unfold Js.values in E. rewrite E in I.
      destruct I.
    + intros ->. reflexivity.
Qed.

(** ** The component [TextToAvatar] *)

Section TextToAvatarFacts.

Lemma trimStart_blank (s : string) :
  JsString.trimStart s = EmptyString <-> blank s = true.
Proof.
  unfold blank. induction s as [|c s IH]; simpl; [tauto|].
  destruct (Js.isWhiteSpace c); simpl; [exact IH|].
  split; discriminate.
Qed.

Lemma trimStart_head (s : string) (c : ascii) (t : string) :
  JsString.trimStart s = String c t -> Js.isWhiteSpace c = false.
Proof.
  induction s as [|a s IH]; simpl; [discriminate|].
  destruct (Js.isWhiteSpace a) eqn:W; [exact IH|].
  now intros [= <- _].
Qed.

Lemma trimEnd_head (c : ascii) (t : string) :
  Js.isWhiteSpace c = false -> JsString.trimEnd (String c t) <> EmptyString.
Proof.
  intros W. simpl. rewrite W. now destruct (JsString.trimEnd t).
Qed.

Lemma trim_blank (s : string) :
  String.eqb (JsString.trim s) "" = blank s.
Proof.
  unfold JsString.trim.
  destruct (JsString.trimStart s) as [|c t] eqn:E.
  - simpl. symmetry. now apply trimStart_blank.
  - assert (B : blank s = false).
    { destruct (blank s) eqn:B; [|reflexivity].
      apply trimStart_blank in B. congruence. }
    rewrite B. apply String.eqb_neq, trimEnd_head.
    apply (trimStart_head _ _ _ E).
Qed.

Lemma Checked_buildAvatarConfig (d : string) :
  Checked.buildAvatarConfig d = Checked.Normal (buildAvatarConfig d).
Proof.
  unfold Checked.buildAvatarConfig, Checked.groupByType.
  now rewrite Checked_fold.
Qed.

Lemma retained_nil_iff (d : string) :
  AvatarConfig.assets (buildAvatarConfig d) = [] <-> findAssets d = [].
Proof.
  unfold buildAvatarConfig, buildAvatarConfigIn. simpl. fold (findAssets d).
  destruct (groupByType_inv (findAssets d)) as (_ & _ & Hcov).
  split; [|now intros ->].
  intros E. destruct (findAssets d) as [|a l]; [reflexivity|]. exfalso.
  specialize (Hcov a (or_introl eq_refl)).
  apply in_map_iff in Hcov as ([k m] & _ & I).
  apply (in_map snd) in I. unfold Js.values in E. rewrite E in I.
  destruct I.
Qed.

End TextToAvatarFacts.

(** X11: on a description of white space only (or empty) [handleGenerate]
    does not call the mapper: it only sets the error "Please enter a
    description", and leaves the results shown before and the loading flag
    as they were. *)
Theorem handleGenerate_blank (st : TextToAvatar.State) :
  blank (TextToAvatar.description st) = true ->
  TextToAvatar.handleGenerate st
  = TextToAvatar.setError "Please enter a description" st.
Proof.
  intros B. unfold TextToAvatar.handleGenerate. now rewrite trim_blank, B.
Qed.

(** A description of two spaces, with a result of an earlier run on show. *)
Lemma handleGenerate_blank_witness :
  TextToAvatar.handleGenerate
    (TextToAvatar.mkState "  " false
       (Some (buildAvatarConfig "black jacket")) "")
  = TextToAvatar.mkState "  " false
      (Some (buildAvatarConfig "black jacket")) "Please enter a description".
Proof.
  exact (handleGenerate_blank
           (TextToAvatar.mkState "  " false
              (Some (buildAvatarConfig "black jacket")) "")
           eq_refl).
Defined.

(** X12: on any other description [handleGenerate] ends with the loading
    flag off and the description untouched, and never with the error of
    its [catch] clause: when [findAssets] finds nothing it clears the
    results and reports "No matching assets found. Try a different
    description."; otherwise it stores the configuration
    [buildAvatarConfig] returns and clears the error. *)
Theorem handleGenerate_not_blank (st : TextToAvatar.State) :
  blank (TextToAvatar.description st) = false ->
  TextToAvatar.handleGenerate st
  = match findAssets (TextToAvatar.description st) with
    | [] =>
        TextToAvatar.mkState (TextToAvatar.description st) false None
          "No matching assets found. Try a different description."
    | _ :: _ =>
        TextToAvatar.mkState (TextToAvatar.description st) false
          (Some (buildAvatarConfig (TextToAvatar.description st))) ""
    end.
Proof.
  intros B. unfold TextToAvatar.handleGenerate. rewrite trim_blank, B.
  cbn [TextToAvatar.description TextToAvatar.setError TextToAvatar.setLoading].
  rewrite Checked_buildAvatarConfig.
  pose proof (retained_nil_iff (TextToAvatar.description st)) as N.
  destruct (findAssets (TextToAvatar.description st)) as [|a l].
  - rewrite (proj2 N eq_refl). reflexivity.
  - destruct (AvatarConfig.assets
                (buildAvatarConfig (TextToAvatar.description st)))
      as [|m ms] eqn:E.
    + pose proof (proj1 N eq_refl) as F. discriminate F.
    + reflexivity.
Qed.

(** "black jacket" finds matches; "xyzzy" finds none. *)
Lemma handleGenerate_not_blank_witness :
  TextToAvatar.handleGenerate
    (TextToAvatar.mkState "black jacket" false None "old error")
  = TextToAvatar.mkState "black jacket" false
      (Some (buildAvatarConfig "black jacket")) ""
  /\ TextToAvatar.handleGenerate
       (TextToAvatar.mkState "xyzzy" false None "")
     = TextToAvatar.mkState "xyzzy" false None
         "No matching assets found. Try a different description.".
Proof.
  pose proof (handleGenerate_not_blank
                (TextToAvatar.mkState "black jacket" false None "old error")
                eq_refl) as H1.
  pose proof (handleGenerate_not_blank
                (TextToAvatar.mkState "xyzzy" false None "") eq_refl) as H2.
  vm_compute in H1, H2. vm_compute. split; [exact H1 | exact H2].
Defined.

(** ** The character list of [App] *)

Section AppFacts.

Lemma saveEffect_ui (w : App.World) : App.ui (App.saveEffect w) = App.ui w.
Proof. unfold App.saveEffect. now destruct (0 <? _). Qed.

Lemma saveEffect_stored (w : App.World) :
  App.characters (App.ui w) <> [] ->
  App.stored (App.saveEffect w) = App.Parsed (App.characters (App.ui w)).
Proof.
  unfold App.saveEffect. destruct (App.characters (App.ui w)); simpl;
    [congruence | reflexivity].
Qed.

(** The invariant after the saving effect, from its first two parts. *)
Lemma saveEffect_inv (st : App.State) (s : App.Stored) :
  Forall (fun c => App.keptOnLoad c = true) (App.characters st) ->
  (forall sel, App.selectedCharacterId st = Some sel ->
               In sel (map App.id (App.characters st))) ->
  AppInv (App.saveEffect (App.mkWorld st s)).
Proof.
  intros H1 H2. unfold AppInv. rewrite saveEffect_ui. simpl.
  split; [exact H1|]. split; [exact H2|].
  intros N. now rewrite saveEffect_stored.
Qed.

Lemma keptOnLoad_forceIdle (c : App.Character) :
  App.keptOnLoad (App.forceIdle c) = App.keptOnLoad c.
Proof. reflexivity. Qed.

Lemma validCharacters_kept (parsed : list App.Character) :
  Forall (fun c => App.keptOnLoad c = true) (App.validCharacters parsed).
Proof.
  unfold App.validCharacters. apply Forall_forall. intros c Hc.
  apply in_map_iff in Hc as (c' & <- & Hc'). apply filter_In in Hc'.
  now rewrite keptOnLoad_forceIdle.
Qed.

Lemma filter_all {A : Type} (p : A -> bool) (l : list A) :
  Forall (fun x => p x = true) l -> filter p l = l.
Proof.
  induction 1 as [|x l Hx _ IH]; simpl; [reflexivity|].
  now rewrite Hx, IH.
Qed.

Lemma mount_inv (saved : App.Stored) : AppInv (App.mount saved).
Proof.
  unfold App.mount, App.loadEffect. simpl.
  destruct saved as [| |parsed]; simpl.
  - unfold AppInv, App.saveEffect. simpl.
    repeat split; [constructor | discriminate | congruence].
  - unfold AppInv, App.saveEffect. simpl.
    repeat split; [constructor | discriminate | congruence].
  - apply saveEffect_inv; simpl.
    + apply validCharacters_kept.
    + discriminate.
Qed.

Lemma refused_kept (url uuid nm : string) (animation : option string) :
  App.refused url = false ->
  App.keptOnLoad (App.mkCharacter uuid nm url animation) = true.
Proof.
  unfold App.refused, App.keptOnLoad. simpl.
  destruct (String.eqb url ""); simpl; [discriminate|].
  destruct (Js.includes url ".glb"); simpl; [|discriminate].
  now destruct (Js.includes url "outfit=outfit_").
Qed.

Lemma find_id_In (sel : string) (cs : list App.Character) :
  In sel (map App.id cs) ->
  exists c, find (fun c => String.eqb (App.id c) sel) cs = Some c
            /\ App.id c = sel.
Proof.
  induction cs as [|c cs IH]; simpl; [tauto|].
  destruct (String.eqb_spec (App.id c) sel) as [E|N].
  - intros _. now exists c.
  - intros [E|I]; [congruence | auto].
Qed.

Lemma step_inv (ev : App.Event) (w : App.World) :
  AppInv w -> App.enabled ev (App.ui w) -> AppInv (App.step ev w).
Proof.
  intros (Hk & Hsel & Hst) En. unfold App.step.
  destruct w as [st s]. simpl in *.
  destruct ev as [| |url uuid|id'|id'|animationType]; simpl in *.
  - repeat split; auto.
  - repeat split; auto.
  - unfold App.addCharacter.
    destruct (App.refused url) eqn:R; simpl; [repeat split; auto|].
    apply saveEffect_inv; simpl.
    + apply Forall_app. split; [exact Hk|].
      constructor; [|constructor]. now apply refused_kept.
    + intros sel [= <-]. rewrite map_app. apply in_or_app. right. now left.
  - repeat split; auto. intros sel [= <-]. exact En.
  - apply saveEffect_inv.
    + unfold App.removeCharacter.
      assert (F : Forall (fun c => App.keptOnLoad c = true)
                    (filter (fun char => negb (String.eqb (App.id char) id'))
                       (App.characters st))).
      { apply Forall_forall. intros c Hc. apply filter_In in Hc as [Hc _].
        rewrite Forall_forall in Hk. auto. }
      destruct (App.selectedCharacterId st) as [sel|]; [|exact F].
      now destruct (String.eqb sel id').
    + unfold App.removeCharacter. intros sel.
      destruct (App.selectedCharacterId st) as [sel0|] eqn:S; simpl;
        rewrite ?S; [|discriminate].
      destruct (String.eqb_spec sel0 id') as [E|N]; simpl; rewrite ?S;
        [discriminate|].
      intros [= <-]. specialize (Hsel _ eq_refl).
      apply in_map_iff in Hsel as (c & Ec & Ic). apply in_map_iff.
      exists c. split; [exact Ec|]. apply filter_In. split; [exact Ic|].
      rewrite Ec. now apply negb_true_iff, String.eqb_neq.
  - destruct En as [En _].
    destruct (App.selectedCharacter st) as [c|]; [|congruence].
    apply saveEffect_inv; simpl.
    + apply Forall_forall. intros c' Hc'.
      apply in_map_iff in Hc' as (c0 & <- & I0).
      rewrite Forall_forall in Hk. specialize (Hk _ I0).
      now destruct (String.eqb (App.id c0) (App.id c)).
    + intros sel Hs. specialize (Hsel _ Hs). rewrite map_map.
      erewrite map_ext; [exact Hsel|].
      intros c0. now destruct (String.eqb (App.id c0) (App.id c)).
Qed.

Lemma reachable_inv (w : App.World) : App.reachable w -> AppInv w.
Proof.
  induction 1 as [saved|ev w _ IH En]; [apply mount_inv|].
  now apply step_inv.
Qed.

(** A world to try the properties on: one avatar exported into an empty
    application. *)
Lemma reachable_one_character :
  App.reachable
    (App.step
       (App.AvatarExported "https://models.readyplayer.me/a1.glb" "id-1")
       (App.step App.ClickCreate (App.mount App.Absent))).
Proof.
  apply App.reach_step; [|reflexivity].
  apply App.reach_step; [|exact I].
  apply App.reach_mount.
Defined.

End AppFacts.

(** X13: the selection of [App] never dangles: after any sequence of
    events, when a character id is selected, [selectedCharacter] finds a
    listed character with that id. *)
Theorem selection_never_dangles (w : App.World) (sel : string) :
  App.reachable w ->
  App.selectedCharacterId (App.ui w) = Some sel ->
  exists c,
    App.selectedCharacter (App.ui w) = Some c /\ App.id c = sel /\
    In c (App.characters (App.ui w)).
Proof.
  intros R S. destruct (reachable_inv w R) as (_ & Hsel & _).
  destruct (find_id_In _ _ (Hsel _ S)) as (c & F & E).
  exists c. unfold App.selectedCharacter. rewrite S.
  split; [exact F|]. split; [exact E|].
  now apply find_some in F.
Qed.

(** After the export of one avatar it is the selected character. *)
Lemma selection_never_dangles_witness :
  exists c,
    App.selectedCharacter
      (App.ui
         (App.step
            (App.AvatarExported "https://models.readyplayer.me/a1.glb"
               "id-1")
            (App.step App.ClickCreate (App.mount App.Absent))))
    = Some c
    /\ App.id c = "id-1"
    /\ In c
         (App.characters
            (App.ui
               (App.step
                  (App.AvatarExported "https://models.readyplayer.me/a1.glb"
                     "id-1")
                  (App.step App.ClickCreate (App.mount App.Absent))))).
Proof.
  exact (selection_never_dangles _ "id-1" reachable_one_character eq_refl).
Defined.

(** X14: what the application saves it loads again: after any sequence of
    events that leaves the list not empty, the storage holds the list,
    every character of it passes the filter of the loading effect, and
    mounting the component again on that storage gives the same
    characters in the same order, each with the animation idle. *)
Theorem reload_restores_characters (w : App.World) :
  App.reachable w ->
  App.characters (App.ui w) <> [] ->
  App.stored w = App.Parsed (App.characters (App.ui w))
  /\ Forall (fun c => App.keptOnLoad c = true) (App.characters (App.ui w))
  /\ App.characters (App.ui (App.mount (App.stored w)))
     = map App.forceIdle (App.characters (App.ui w)).
Proof.
  intros R N. destruct (reachable_inv w R) as (Hk & _ & Hst).
  specialize (Hst N). split; [exact Hst|]. split; [exact Hk|].
  rewrite Hst. unfold App.mount. rewrite saveEffect_ui.
  unfold App.loadEffect, App.validCharacters. simpl.
  now rewrite (filter_all _ _ Hk).
Qed.

(** One exported avatar comes back after a reload. *)
Lemma reload_restores_characters_witness :
  App.characters
    (App.ui
       (App.mount
          (App.stored
             (App.step
                (App.AvatarExported "https://models.readyplayer.me/a1.glb"
                   "id-1")
                (App.step App.ClickCreate (App.mount App.Absent))))))
  = [ App.mkCharacter "id-1" "Character 1"
        "https://models.readyplayer.me/a1.glb" (Some "idle") ].
Proof.
  exact (proj2 (proj2 (reload_restores_characters _ reachable_one_character
                         ltac:(discriminate)))).
Defined.

(** X15: deleting the last character is not saved: when the list holds one
    character, a click on its delete button empties the list but leaves
    the storage as it was, so that mounting the component again brings the
    character back. *)
Theorem delete_last_not_saved (w : App.World) (c : App.Character) :
  App.reachable w ->
  App.characters (App.ui w) = [c] ->
  App.characters (App.ui (App.step (App.ClickDelete (App.id c)) w)) = []
  /\ App.stored (App.step (App.ClickDelete (App.id c)) w) = App.Parsed [c]
  /\ App.characters
       (App.ui
          (App.mount (App.stored (App.step (App.ClickDelete (App.id c)) w))))
     = [App.forceIdle c].
Proof.
  intros R E. destruct (reachable_inv w R) as (Hk & _ & Hst).
  rewrite E in Hk, Hst. specialize (Hst ltac:(discriminate)).
  inversion Hk as [|? ? Kc _]; subst.
  assert (S : App.step (App.ClickDelete (App.id c)) w
              = App.mkWorld
                  (App.removeCharacter (App.id c) (App.ui w))
                  (App.Parsed [c])).
  { unfold App.step, App.saveEffect. simpl. rewrite Hst.
    unfold App.removeCharacter.
    destruct (App.selectedCharacterId (App.ui w)) as [sel|];
      [destruct (String.eqb sel (App.id c))|]; simpl; rewrite E; simpl;
      rewrite String.eqb_refl; reflexivity. }
  rewrite S. simpl.
  assert (C : App.characters (App.removeCharacter (App.id c) (App.ui w))
              = []).
  { unfold App.removeCharacter.
    destruct (App.selectedCharacterId (App.ui w)) as [sel|];
      [destruct (String.eqb sel (App.id c))|]; simpl; rewrite E; simpl;
      rewrite String.eqb_refl; reflexivity. }
  split; [exact C|]. split; [reflexivity|].
  unfold App.mount. rewrite saveEffect_ui.
  unfold App.loadEffect, App.validCharacters. simpl. now rewrite Kc.
Qed.

(** The one exported avatar, deleted and back after a reload. *)
Lemma delete_last_not_saved_witness :
  App.characters
    (App.ui
       (App.step (App.ClickDelete "id-1")
          (App.step
             (App.AvatarExported "https://models.readyplayer.me/a1.glb"
                "id-1")
             (App.step App.ClickCreate (App.mount App.Absent)))))
  = []
  /\ App.characters
       (App.ui
          (App.mount
             (App.stored
                (App.step (App.ClickDelete "id-1")
                   (App.step
                      (App.AvatarExported
                         "https://models.readyplayer.me/a1.glb" "id-1")
                      (App.step App.ClickCreate (App.mount App.Absent)))))))
     = [ App.mkCharacter "id-1" "Character 1"
           "https://models.readyplayer.me/a1.glb" (Some "idle") ].
Proof.
  destruct (delete_last_not_saved _
              (App.mkCharacter "id-1" "Character 1"
                 "https://models.readyplayer.me/a1.glb" (Some "idle"))
              reachable_one_character eq_refl) as (H1 & _ & H3).
  split; [exact H1 | exact H3].
Defined.

(** ** Keeping the avatar in place *)

Section KeepInPlaceFacts.
Variable number : Type.
Variable zero : number.







End KeepInPlaceFacts.



(** ** Tokens and white space *)

Section TokenFacts.

Lemma append_nil_r (s : string) : String.append s EmptyString = s.
Proof. induction s as [|c s IH]; simpl; [reflexivity | now rewrite IH]. Qed.

Lemma append_assoc (a b c : string) :
  String.append (String.append a b) c = String.append a (String.append b c).
Proof. induction a as [|x a IH]; simpl; [reflexivity | now rewrite IH]. Qed.

Lemma split_ws_starts (s : string) :
  Js.startsWithWhiteSpace s = true ->
  exists pieces, Js.split_ws s = EmptyString :: pieces.
Proof.
  induction s as [|c s IH]; simpl; [discriminate|]. intros ->.
  destruct (Js.startsWithWhiteSpace s); [now apply IH | now eexists].
Qed.

Lemma tokensFrom_split (s : string) :
  forall cur : string,
    filter nonEmpty (consHead cur (Js.split_ws s)) = tokensFrom cur s.
Proof.
  induction s as [|c s IH]; intros cur.
  - simpl. now rewrite append_nil_r.
  - simpl. destruct (Js.isWhiteSpace c) eqn:W.
    + destruct (Js.startsWithWhiteSpace s) eqn:Ws.
      * destruct (split_ws_starts s Ws) as [pieces E].
        rewrite <- (IH EmptyString), E. simpl. rewrite append_nil_r.
        unfold emit. destruct (nonEmpty cur); reflexivity.
      * rewrite <- (IH EmptyString). simpl. rewrite append_nil_r.
        unfold emit. destruct (nonEmpty cur); simpl;
          now destruct (Js.split_ws s).
    + rewrite <- IH.
      destruct (Js.split_ws s) as [|piece pieces] eqn:E; simpl.
      * exfalso. now apply (split_ws_not_nil s).
      * now rewrite append_assoc.
Qed.

Lemma tokens_tokensFrom (s : string) : tokens s = tokensFrom EmptyString s.
Proof.
  unfold tokens. rewrite <- tokensFrom_split.
  now destruct (Js.split_ws s).
Qed.

Lemma tokensFrom_app (d e : string) :
  forall cur : string,
    tokensFrom cur (String.append d (String " " e))
    = tokensFrom cur d ++ tokensFrom EmptyString e.
Proof.
  induction d as [|c d IH]; intros cur; simpl; [reflexivity|].
  destruct (Js.isWhiteSpace c); [|apply IH].
  now rewrite IH, app_assoc.
Qed.

Lemma tokens_app (d e : string) :
  tokens (String.append d (String " " e)) = tokens d ++ tokens e.
Proof. rewrite !tokens_tokensFrom. apply tokensFrom_app. Qed.

Lemma toLowerCase_app (d e : string) :
  Js.toLowerCase (String.append d e)
  = String.append (Js.toLowerCase d) (Js.toLowerCase e).
Proof. induction d as [|c d IH]; simpl; [reflexivity | now rewrite IH]. Qed.

Lemma filter_filter_sub {A : Type} (p q : A -> bool) (l : list A) :
  (forall x, p x = true -> q x = true) ->
  filter p (filter q l) = filter p l.
Proof.
  intros H. induction l as [|x l IH]; simpl; [reflexivity|].
  destruct (q x) eqn:Q; simpl; rewrite IH; [reflexivity|].
  destruct (p x) eqn:P; [|reflexivity].
  apply H in P. congruence.
Qed.

Lemma genderPass_add (asset : Asset.t) (searchTerms : SearchTerms.t)
    (score : nat) :
  genderPass asset searchTerms score
  = score + genderPass asset searchTerms 0.
Proof.
  unfold genderPass.
  destruct (0 <? _); [destruct (genderMatch _ _)|]; lia.
Qed.

(** The score as a sum over the passes. *)
Lemma calculateMatchScore_sum (asset : Asset.t) (words : list string) :
  calculateMatchScore asset (termsOf words)
  = 10 * List.length
           (filter
              (typeHit asset (Js.toLowerCase (Asset.name asset))
                 (Asset.tags asset))
              (filter (Js.arr_includes clothingTypes) words))
    + 5 * List.length
            (filter
               (tagHit (Js.toLowerCase (Asset.name asset)) (Asset.tags asset))
               (filter (Js.arr_includes colors) words))
    + 5 * List.length
            (filter
               (tagHit (Js.toLowerCase (Asset.name asset)) (Asset.tags asset))
               (filter (Js.arr_includes materials) words))
    + 3 * List.length
            (filter
               (tagHit (Js.toLowerCase (Asset.name asset)) (Asset.tags asset))
               (filter (Js.arr_includes styles) words))
    + genderPass asset (termsOf words) 0
    + List.length
        (filter
           (keywordHit (Js.toLowerCase (Asset.name asset)) (Asset.tags asset))
           words).
Proof.
  unfold calculateMatchScore, keywordPass.
  rewrite forEachHit_count, genderPass_add, !forEachHit_count.
  simpl. lia.
Qed.

Lemma genderPass_termsOf (asset : Asset.t) (words : list string) :
  genderPass asset (termsOf words) 0
  = if existsb (genderTokenMatch asset)
         (filter (Js.arr_includes genderTerms) words)
    then 2 else 0.
Proof.
  unfold genderPass, genderMatch. simpl.
  now destruct (filter (Js.arr_includes genderTerms) words).
Qed.

(** Empty pieces add nothing to a score. *)
Lemma calculateMatchScore_tokens (asset : Asset.t) (words : list string) :
  calculateMatchScore asset (termsOf (filter nonEmpty words))
  = calculateMatchScore asset (termsOf words).
Proof.
  assert (V : forall voc,
             Js.arr_includes voc "" = false ->
             forall x, Js.arr_includes voc x = true -> nonEmpty x = true).
  { intros voc Hv [|c x] Hx; [congruence | reflexivity]. }
  rewrite !calculateMatchScore_sum, !genderPass_termsOf.
  rewrite !(filter_filter_sub (Js.arr_includes clothingTypes)),
    !(filter_filter_sub (Js.arr_includes colors)),
    !(filter_filter_sub (Js.arr_includes materials)),
    !(filter_filter_sub (Js.arr_includes styles)),
    !(filter_filter_sub (Js.arr_includes genderTerms)),
    !(filter_filter_sub (keywordHit _ _));
    try (apply V; reflexivity); [reflexivity|].
  intros [|c x] Hx; [discriminate Hx | reflexivity].
Qed.

Lemma existsb_app_le {A : Type} (p : A -> bool) (l1 l2 : list A) :
  (if existsb p l1 then 2 else 0) <= (if existsb p (l1 ++ l2) then 2 else 0).
Proof.
  rewrite existsb_app. destruct (existsb p l1); simpl; [lia|].
  destruct (existsb p l2); lia.
Qed.

(** More words, no lower score. *)
Lemma calculateMatchScore_app (asset : Asset.t) (l1 l2 : list string) :
  calculateMatchScore asset (termsOf l1)
  <= calculateMatchScore asset (termsOf (l1 ++ l2)).
Proof.
  rewrite !calculateMatchScore_sum, !genderPass_termsOf.
  rewrite !filter_app, !length_app.
  pose proof (existsb_app_le (genderTokenMatch asset)
                (filter (Js.arr_includes genderTerms) l1)
                (filter (Js.arr_includes genderTerms) l2)).
  lia.
Qed.

Lemma extractSearchTerms_tokens (asset : Asset.t) (d : string) :
  calculateMatchScore asset (extractSearchTerms d)
  = calculateMatchScore asset (termsOf (tokens (Js.toLowerCase d))).
Proof.
  unfold tokens. rewrite calculateMatchScore_tokens. reflexivity.
Qed.

Lemma collectMatches_ext (assets : Js.obj Asset.t) (t t' : SearchTerms.t) :
  (forall asset, calculateMatchScore asset t = calculateMatchScore asset t') ->
  collectMatches assets t = collectMatches assets t'.
Proof.
  intros H. rewrite !collectMatches_filter. f_equal.
  apply map_ext. intros entry. unfold toMatch. now rewrite H.
Qed.

End TokenFacts.

(** X17: only the tokens of the description matter to [findAssets]: two
    descriptions whose lower-case forms have the same tokens in the same
    order, however the white space between and around them is laid out,
    get the same matches. *)
Theorem findAssets_ignores_white_space_layout (d d' : string) :
  tokens (Js.toLowerCase d) = tokens (Js.toLowerCase d') ->
  findAssets d = findAssets d'.
Proof.
  intros E. unfold findAssets, findAssetsIn. f_equal. f_equal.
  apply collectMatches_ext. intros asset.
  now rewrite !extractSearchTerms_tokens, E.
Qed.

(** A description padded with spaces, a tab and a line break. *)
Lemma findAssets_ignores_white_space_layout_witness :
  findAssets
    (String.append "  Black   leather"
       (String "009"%char (String.append "jacket" (String "010"%char ""))))
  = findAssets "black leather jacket".
Proof.
  exact (findAssets_ignores_white_space_layout _ _ eq_refl).
Defined.

(** X18: more words never lose a match: every asset [findAssets] returns
    for a description is returned too when further words are added after a
    space, and no entry scores less than before. *)
Theorem more_words_keep_matches (d e : string) :
  (forall asset : Asset.t,
     calculateMatchScore asset (extractSearchTerms d)
     <= calculateMatchScore asset
          (extractSearchTerms (String.append d (String " " e))))
  /\ forall id : string,
       In id (map AssetMatch.id (findAssets d)) ->
       In id
         (map AssetMatch.id (findAssets (String.append d (String " " e)))).
Proof.
  assert (S : forall asset : Asset.t,
             calculateMatchScore asset (extractSearchTerms d)
             <= calculateMatchScore asset
                  (extractSearchTerms (String.append d (String " " e)))).
  { intros asset. rewrite !extractSearchTerms_tokens, toLowerCase_app.
    change (Js.toLowerCase (String " " e))
      with (String " " (Js.toLowerCase e)).
    rewrite tokens_app. apply calculateMatchScore_app. }
  split; [exact S|].
  intros id H. apply in_map_iff in H as (m & <- & Hm).
  apply In_findAssetsIn, In_collectMatches in Hm
    as [P ([id asset] & I & ->)].
  simpl in *. apply in_map_iff.
  exists (toMatch (extractSearchTerms (String.append d (String " " e)))
            (id, asset)).
  split; [reflexivity|].
  apply findAssetsIn_complete; [simpl; lia|].
  apply In_collectMatches. split.
  - simpl. specialize (S asset). lia.
  - now exists (id, asset).
Qed.

(** The jacket found for "black jacket" is found for "black jacket and
    blue jeans" as well. *)
Lemma more_words_keep_matches_witness :
  In "outfit_leather_jacket_black"
    (map AssetMatch.id (findAssets "black jacket and blue jeans")).
Proof.
  apply (proj2 (more_words_keep_matches "black jacket" "and blue jeans")).
  vm_compute. now left.
Defined.
